(** * Video + Music Merger (main.py): a shallow embedding and its properties

    The program is a PySide6 front end around MoviePy.  Its own logic is
    - [ensure_ffmpeg_available] and the module-level set-up of [ENGINE],
    - the volume fallback chain [_safe_vol],
    - the one-shot job [MergeWorker.run],
    - the button/selection logic of [MainWindow].

    MoviePy, imageio-ffmpeg, the file system and Qt are not part of the
    program: they appear as records of operations ([Host], [MoviePy]) over
    which every statement is quantified.  Python floats are IEEE binary64
    numbers, modelled by Rocq's primitive floats; Python exceptions caught by
    [except Exception] are values of [Py.exn]; a call that may raise returns
    a [Py.result]. *)

From Stdlib Require Import Bool ZArith List String Ascii Uint63 Floats Lia.
Import ListNotations.

Set Implicit Arguments.
Open Scope string_scope.
Open Scope list_scope.

(* ------------------------------------------------------------------ *)
(** * Python values, exceptions and strings *)

Module Py.

(** An instance of a subclass of [Exception]: the class name and the text
    that [str(e)] returns. *)
Record exn : Type := Exception { exn_class : string; exn_text : string }.

Definition str (e : exn) : string := exn_text e.

Definition RuntimeError (msg : string) : exn := Exception "RuntimeError" msg.
Definition FileNotFoundError (msg : string) : exn := Exception "FileNotFoundError" msg.
Definition TypeError (msg : string) : exn := Exception "TypeError" msg.
Definition AttributeError (msg : string) : exn := Exception "AttributeError" msg.

(** Outcome of an expression: a value, or a raised exception. *)
Inductive result (A : Type) : Type :=
| Ok (a : A)
| Raise (e : exn).
Arguments Ok {A} a.
Arguments Raise {A} e.

Definition rbind {A B} (r : result A) (k : A -> result B) : result B :=
  match r with
  | Ok a => k a
  | Raise e => Raise e
  end.

(** What [getattr(obj, name)] can find: nothing, a value that is not
    callable, or a bound method. *)
Inductive attr (F : Type) : Type :=
| Missing
| NotCallable
| Method (f : F).
Arguments Missing {F}.
Arguments NotCallable {F}.
Arguments Method {F} f.

Definition hasattr {F} (a : attr F) : bool :=
  match a with Missing => false | _ => true end.

Definition callable {F} (a : attr F) : bool :=
  match a with Method _ => true | _ => false end.

(** [obj.name(args)]: the attribute is looked up, then called. *)
Definition invoke {F A} (a : attr F) (name : string) (call : F -> result A) : result A :=
  match a with
  | Missing => Raise (AttributeError name)
  | NotCallable => Raise (TypeError name)
  | Method f => call f
  end.

(** Truth value of a [str] and of an [Optional[str]]. *)
Definition truthy (s : string) : bool := negb (String.eqb s "").

Definition truthy_opt (o : option string) : bool :=
  match o with
  | Some s => truthy s
  | None => false
  end.

(** [str.lower] on the ASCII range.  Paths are byte strings (UTF-8); only
    the letters A-Z are changed, which is all that the test against the
    ASCII suffix ".mp4" can observe. *)
Definition lower_ascii (c : ascii) : ascii :=
  let n := nat_of_ascii c in
  if (65 <=? n)%nat && (n <=? 90)%nat then ascii_of_nat (n + 32) else c.

Fixpoint lower (s : string) : string :=
  match s with
  | EmptyString => EmptyString
  | String c s' => String (lower_ascii c) (lower s')
  end.

(** [s.endswith(suffix)]: some tail of [s] is [suffix]. *)
Fixpoint endswith (s suffix : string) : bool :=
  String.eqb s suffix ||
  match s with
  | EmptyString => false
  | String _ s' => endswith s' suffix
  end.

(** [x or d] for an optional float: [None], [0.0] and [-0.0] are false. *)
Definition float_or (x : option float) (d : float) : float :=
  match x with
  | None => d
  | Some v => if PrimFloat.eqb v 0%float then d else v
  end.

End Py.

Import Py.

(* ------------------------------------------------------------------ *)
(** * Media Engine Locator (main.py, lines 23-64) *)

(** The three values [ENGINE] takes: "system-ffmpeg", "bundled-ffmpeg",
    "disabled". *)
Inductive engine : Type :=
| system_ffmpeg
| bundled_ffmpeg
| disabled.

Definition engine_eqb (a b : engine) : bool :=
  match a, b with
  | system_ffmpeg, system_ffmpeg
  | bundled_ffmpeg, bundled_ffmpeg
  | disabled, disabled => true
  | _, _ => false
  end.

Definition engine_name (e : engine) : string :=
  match e with
  | system_ffmpeg => "system-ffmpeg"
  | bundled_ffmpeg => "bundled-ffmpeg"
  | disabled => "disabled"
  end.

(** What the locator asks of its surroundings, and the value the process
    inherits for the environment variable IMAGEIO_FFMPEG_EXE ([None] when it
    is not set). *)
Record Host : Type := {
  which : string -> option string;       (* shutil.which *)
  get_ffmpeg_exe : result string;        (* imageio_ffmpeg.get_ffmpeg_exe() *)
  path_exists : string -> bool;          (* os.path.exists *)
  inherited_exe : option string          (* os.environ.get("IMAGEIO_FFMPEG_EXE") *)
}.

(** The module-level variables, and the one environment variable the module
    writes. *)
Record Globals : Type := {
  FFMPEG_ERROR : option string;
  ENGINE : engine;
  IMAGEIO_FFMPEG_EXE : option string
}.

Definition set_ENGINE (g : Globals) (e : engine) : Globals :=
  {| FFMPEG_ERROR := FFMPEG_ERROR g; ENGINE := e;
     IMAGEIO_FFMPEG_EXE := IMAGEIO_FFMPEG_EXE g |}.

(** Lines 24-25, and the environment as the process found it. *)
Definition module_globals (h : Host) : Globals :=
  {| FFMPEG_ERROR := None; ENGINE := disabled;
     IMAGEIO_FFMPEG_EXE := inherited_exe h |}.

Definition no_ffmpeg_message : string :=
  "No FFmpeg executable found. Install FFmpeg or keep 'imageio-ffmpeg' installed.".

(** The [try: ... except Exception: pass] block of the bundled probe:
    [Some p] when the block returned [p], [None] when it fell through. *)
Definition bundled_probe (h : Host) : option string :=
  match get_ffmpeg_exe h with
  | Ok p => if path_exists h p then Some p else None
  | Raise _ => None
  end.

Definition ensure_ffmpeg_available (h : Host) (g : Globals) : result string * Globals :=
  let bundled :=
    match bundled_probe h with
    | Some p => (Ok p, set_ENGINE g bundled_ffmpeg)
    | None => (Raise (FileNotFoundError no_ffmpeg_message), set_ENGINE g disabled)
    end in
  match which h "ffmpeg" with
  | Some ffmpeg_path =>
      if truthy ffmpeg_path then (Ok ffmpeg_path, set_ENGINE g system_ffmpeg)
      else bundled
  | None => bundled
  end.

(** Lines 60-64: the module-level [try/except] around the locator. *)
Definition module_load (h : Host) : Globals :=
  match ensure_ffmpeg_available h (module_globals h) with
  | (Ok p, g) =>
      {| FFMPEG_ERROR := FFMPEG_ERROR g; ENGINE := ENGINE g;
         IMAGEIO_FFMPEG_EXE := Some p |}
  | (Raise e, g) =>
      {| FFMPEG_ERROR := Some (str e); ENGINE := ENGINE g;
         IMAGEIO_FFMPEG_EXE := IMAGEIO_FFMPEG_EXE g |}
  end.

(** The two imports of the module that no [try] guards: [import
    imageio_ffmpeg] (line 21) and [from moviepy import ...] (line 67).  The
    second runs after lines 60-64, with the globals and the environment they
    leave.  What an import does is the package's; when it raises, the module
    does not load. *)
Record Packages : Type := {
  import_imageio_ffmpeg : result unit;
  import_moviepy : Globals -> result unit
}.

(** Lines 21-67 in order: the first import, the guarded locator, the second
    import. *)
Definition load (pk : Packages) (h : Host) : result Globals :=
  rbind (import_imageio_ffmpeg pk) (fun _ =>
  let g := module_load h in
  rbind (import_moviepy pk g) (fun _ => Ok g)).

(* ------------------------------------------------------------------ *)
(** * MoviePy as the program sees it *)

(** An audio frame is a numpy array of samples. *)
Definition frame : Type := list float.

(** Keyword arguments of [write_videofile]. *)
Record write_options : Type := {
  codec : string;
  audio_codec : string;
  temp_audiofile : string;
  remove_temp : bool;
  threads : Z;
  fps_arg : float
}.

(** The linked MoviePy build.  [audio] and [video] are its clip objects.
    An attribute a build may lack is an [attr]; a module-level name bound by a
    guarded import is an [option] ([None] when the imports failed). *)
Record MoviePy (audio video : Type) : Type := {
  (* audio clips *)
  get_frame : audio -> float -> frame;
  audio_duration : audio -> option float;
  clip_volumex : audio -> attr (float -> result audio);
  clip_fx : audio -> attr ((audio -> float -> result audio) -> float -> result audio);
  clip_fl : audio -> attr (((float -> frame) -> float -> frame) -> result audio);
  audio_exit : audio -> option exn -> result bool;
  (* names bound at lines 69-82 *)
  volumex : option (audio -> float -> result audio);
  audio_loop : option (audio -> float -> result audio);
  (* constructors *)
  VideoFileClip : string -> result video;
  AudioFileClip : string -> result audio;
  CompositeAudioClip : list audio -> result audio;
  (* video clips *)
  duration : video -> option float;
  fps : video -> option float;
  audio_of : video -> option audio;
  with_audio : video -> audio -> result video;
  write_videofile : video -> string -> write_options -> result unit;
  video_exit : video -> option exn -> result bool
}.

(** The same build with the name [audio_loop] unbound. *)
Definition without_audio_loop {audio video} (L : MoviePy audio video) : MoviePy audio video :=
  {| get_frame := get_frame L; audio_duration := audio_duration L;
     clip_volumex := clip_volumex L; clip_fx := clip_fx L; clip_fl := clip_fl L;
     audio_exit := audio_exit L; volumex := volumex L; audio_loop := None;
     VideoFileClip := VideoFileClip L; AudioFileClip := AudioFileClip L;
     CompositeAudioClip := CompositeAudioClip L; duration := duration L;
     fps := fps L; audio_of := audio_of L; with_audio := with_audio L;
     write_videofile := write_videofile L; video_exit := video_exit L |}.

(* ------------------------------------------------------------------ *)
(** * Volume Adapter (main.py, lines 84-130) *)

Module Volume.
Section Adapter.
Variables audio video : Type.
Variable L : MoviePy audio video.

(** Python's literal [1e-9]. *)
Definition epsilon : float := 0x1.12e0be826d695p-30%float.

(** [abs(level - 1.0) < 1e-9] *)
Definition near_one (level : float) : bool :=
  PrimFloat.ltb (PrimFloat.abs (PrimFloat.sub level 1%float)) epsilon.

(** [lambda gf, t: gf(t) * float(level)] *)
Definition scale_frames (level : float) (gf : float -> frame) (t : float) : frame :=
  List.map (fun x => PrimFloat.mul x level) (gf t).

Definition volume_unavailable : exn :=
  RuntimeError "Volume effect not available in this MoviePy build.".

(** [return e] inside a [try] block. *)
Definition returning {A} (r : result A) : result (option A) :=
  rbind r (fun a => Ok (Some a)).

(** [try: body / except Exception: pass]: the value the body returned, or
    [None] when control goes on to the next statement. *)
Definition try_pass {A} (body : result (option A)) : option A :=
  match body with
  | Ok (Some a) => Some a
  | Ok None => None
  | Raise _ => None
  end.

Definition method1 (clip : audio) (level : float) : option audio :=
  try_pass
    (if hasattr (clip_volumex L clip)
     then returning (invoke (clip_volumex L clip) "volumex" (fun m => m level))
     else Ok None).

Definition method2 (clip : audio) (level : float) : option audio :=
  match volumex L with
  | Some effect =>
      try_pass (returning (invoke (clip_fx L clip) "fx" (fun m => m effect level)))
  | None => None
  end.

Definition method3 (clip : audio) (level : float) : option audio :=
  try_pass
    (if hasattr (clip_fl L clip) && callable (clip_fl L clip)
     then returning (invoke (clip_fl L clip) "fl" (fun m => m (scale_frames level)))
     else Ok None).

Definition _safe_vol (clip : audio) (level : float) : result audio :=
  match method1 clip level with
  | Some c => Ok c
  | None =>
  match method2 clip level with
  | Some c => Ok c
  | None =>
  match method3 clip level with
  | Some c => Ok c
  | None =>
      if near_one level then Ok clip else Raise volume_unavailable
  end end end.

(** ** The chain as the specification words it

    "attempt, in order, every mechanism the linked library version
    supports ... and use the first one that does not raise an error". *)

(** One mechanism: [None] if this build does not support it, else the
    outcome of applying it. *)
Definition mechanism : Type := audio -> float -> option (result audio).

Definition direct_scaling_method : mechanism := fun clip level =>
  match clip_volumex L clip with
  | Missing => None
  | a => Some (invoke a "volumex" (fun m => m level))
  end.

Definition named_effect_function : mechanism := fun clip level =>
  match volumex L with
  | None => None
  | Some effect => Some (invoke (clip_fx L clip) "fx" (fun m => m effect level))
  end.

Definition manual_transform : mechanism := fun clip level =>
  match clip_fl L clip with
  | Method fl => Some (fl (fun gf t => List.map (fun x => PrimFloat.mul x level) (gf t)))
  | _ => None
  end.

Definition mechanisms : list mechanism :=
  [direct_scaling_method; named_effect_function; manual_transform].

Fixpoint first_success (ms : list mechanism) (clip : audio) (level : float) : option audio :=
  match ms with
  | [] => None
  | m :: rest =>
      match m clip level with
      | Some (Ok c) => Some c
      | _ => first_success rest clip level
      end
  end.

Definition adapter_contract (clip : audio) (level : float) : result audio :=
  match first_success mechanisms clip level with
  | Some c => Ok c
  | None => if near_one level then Ok clip else Raise volume_unavailable
  end.

End Adapter.
End Volume.

Import Volume.

(* ------------------------------------------------------------------ *)
(** * Merge Job (main.py, lines 146-248) *)

(** The fields [MergeWorker.__init__] stores: one Merge Request. *)
Record MergeWorker : Type := {
  video_path : string;
  audio_path : string;
  output_path : string;
  music_level : float;
  original_level : float;
  duck : bool
}.

Module Job.
Section Run.
Variables audio video : Type.
Variable L : MoviePy audio video.

(** What a run does to the outside, in order: the three Qt signals of the
    worker, and the calls that open, close, attach and write media. *)
Inductive event : Type :=
| progress_emit (n : Z)
| finished_emit (path : string)
| failed_emit (msg : string)
| VideoFileClip_call (path : string)
| AudioFileClip_call (path : string)
| video_exit_call (v : video)
| audio_exit_call (a : audio)
| with_audio_call (v : video) (a : audio)
| write_videofile_call (clip : video) (path : string) (o : write_options).

(** A statement: the events it performed and how it ended. *)
Definition M (A : Type) : Type := (list event * result A)%type.

Definition ret {A} (a : A) : M A := ([], Ok a).
Definition raise {A} (e : exn) : M A := ([], Raise e).
Definition lift {A} (r : result A) : M A := ([], r).
Definition emit (ev : event) : M unit := ([ev], Ok tt).
Definition call {A} (ev : event) (r : result A) : M A := ([ev], r).

Definition bind {A B} (m : M A) (k : A -> M B) : M B :=
  match m with
  | (l, Ok a) => let (l', r) := k a in (l ++ l', r)
  | (l, Raise e) => (l, Raise e)
  end.

(** [try: m / except Exception as e: h e] *)
Definition try_except {A} (m : M A) (h : exn -> M A) : M A :=
  match m with
  | (l, Ok a) => (l, Ok a)
  | (l, Raise e) => let (l', r) := h e in (l ++ l', r)
  end.

(** [with enter as r: body r].  [__exit__] runs on both ways out of the
    body; on an exception it may raise itself, or swallow the exception by
    returning a true value. *)
Definition with_ {R} (enter : M R) (exit_ : R -> option exn -> M bool)
    (body : R -> M unit) : M unit :=
  bind enter (fun r =>
    match body r with
    | (l, Ok _) =>
        bind (l, Ok tt) (fun _ => bind (exit_ r None) (fun _ => ret tt))
    | (l, Raise e) =>
        bind (l, Ok tt) (fun _ =>
        bind (exit_ r (Some e)) (fun swallowed =>
        if (swallowed : bool) then ret tt else raise e))
    end).

Declare Scope job_scope.
Delimit Scope job_scope with job.
Notation "x <- m ;; k" := (bind m (fun x => k))
  (at level 100, m at next level, right associativity) : job_scope.
Notation "m ;; k" := (bind m (fun _ => k))
  (at level 100, right associativity) : job_scope.
Local Open Scope job_scope.

(** Lines 215-220. *)
Definition loop_music (duration : float) (music : audio) : audio :=
  if PrimFloat.ltb 0%float duration then
    match audio_loop L with
    | Some loop =>
        match loop music duration with
        | Ok looped => looped
        | Raise _ => music
        end
    | None => music
    end
  else music.

(** Lines 222-229. *)
Definition attach_audio (w : MergeWorker) (v : video)
    (original_audio : option audio) (music : audio) : M video :=
  match duck w, original_audio with
  | true, Some original =>
      bed <- lift (_safe_vol L original (original_level w)) ;;
      mixed <- lift (CompositeAudioClip L [bed; music]) ;;
      call (with_audio_call v mixed) (with_audio L v mixed)
  | _, _ =>
      call (with_audio_call v music) (with_audio L v music)
  end.

Definition write_args (v_fps : float) : write_options :=
  {| codec := "libx264"; audio_codec := "aac";
     temp_audiofile := "_temp_audio.m4a"; remove_temp := true;
     threads := 0; fps_arg := v_fps |}.

(** Lines 213-242: the body of [with AudioFileClip(...) as music]. *)
Definition music_block (w : MergeWorker) (v : video) (dur v_fps : float)
    (original_audio : option audio) (music0 : audio) : M unit :=
  music <- lift (_safe_vol L music0 (music_level w)) ;;
  let music := loop_music dur music in
  merged_clip <- attach_audio w v original_audio music ;;
  emit (progress_emit 55) ;;
  call (write_videofile_call merged_clip (output_path w) (write_args v_fps))
       (write_videofile L merged_clip (output_path w) (write_args v_fps)).

(** Lines 205-242: the body of [with VideoFileClip(...) as v]. *)
Definition video_block (w : MergeWorker) (v : video) : M unit :=
  let dur := float_or (duration L v) 0%float in
  let v_fps := float_or (fps L v) 25%float in
  let original_audio := audio_of L v in
  emit (progress_emit 20) ;;
  with_ (call (AudioFileClip_call (audio_path w)) (AudioFileClip L (audio_path w)))
        (fun a exc => call (audio_exit_call a) (audio_exit L a exc))
        (music_block w v dur v_fps original_audio).

(** Lines 197-242: the [try] block up to the end of the outer [with]. *)
Definition work (g : Globals) (w : MergeWorker) : M unit :=
  (if engine_eqb (ENGINE g) disabled
   then raise (RuntimeError "FFmpeg unavailable.") else ret tt) ;;
  emit (progress_emit 5) ;;
  with_ (call (VideoFileClip_call (video_path w)) (VideoFileClip L (video_path w)))
        (fun v exc => call (video_exit_call v) (video_exit L v exc))
        (video_block w).

(** Lines 196-248: [MergeWorker.run]. *)
Definition run_statement (g : Globals) (w : MergeWorker) : M unit :=
  try_except
    (work g w ;;
     emit (progress_emit 100) ;;
     emit (finished_emit (output_path w)))
    (fun e => emit (failed_emit (str e))).

Definition run (g : Globals) (w : MergeWorker) : list event :=
  fst (run_statement g w).

(** The two terminal signals. *)
Definition terminal (ev : event) : bool :=
  match ev with
  | finished_emit _ | failed_emit _ => true
  | _ => false
  end.

Definition milestone (ev : event) : bool :=
  match ev with
  | progress_emit _ => true
  | _ => false
  end.

Definition loads_input (ev : event) : bool :=
  match ev with
  | VideoFileClip_call _ | AudioFileClip_call _ => true
  | _ => false
  end.

(** A stretch of events without a terminal signal. *)
Definition quiet (l : list event) : Prop :=
  forall ev, In ev l -> terminal ev = false.

(** [music] is the music as it reaches line 222 in a run on video [v]: the
    music file opened, scaled by [music_level], and looped (lines 212-220). *)
Definition prepared_music (w : MergeWorker) (v : video) (music : audio) : Prop :=
  exists music0 music1,
    AudioFileClip L (audio_path w) = Ok music0 /\
    _safe_vol L music0 (music_level w) = Ok music1 /\
    music = loop_music (float_or (duration L v) 0%float) music1.

End Run.

Arguments progress_emit {audio video} n.
Arguments finished_emit {audio video} path.
Arguments failed_emit {audio video} msg.
Arguments VideoFileClip_call {audio video} path.
Arguments AudioFileClip_call {audio video} path.
Arguments video_exit_call {audio video} v.
Arguments audio_exit_call {audio video} a.
Arguments with_audio_call {audio video} v a.
Arguments write_videofile_call {audio video} clip path o.

(** The request [w] with another ducking flag and original level. *)
Definition with_ducking (w : MergeWorker) (flag : bool) (level : float) : MergeWorker :=
{| video_path := video_path w; audio_path := audio_path w;
   output_path := output_path w; music_level := music_level w;
   original_level := level; duck := flag |}.

End Job.

(* ------------------------------------------------------------------ *)
(** * Interactive Shell (main.py, lines 132-144 and 250-582)

    Only the state that decides whether and with what a job is started is
    kept: the selection, the merge button, the mixing controls, the message
    boxes shown, and the workers whose thread has been started and whose
    terminal signal has not been delivered yet.  Labels, players and the play
    buttons never feed back into these. *)

Module Selection.
Record SelectionState : Type := {
  video_path : option string;
  audio_path : option string;
  output_path : option string
}.
End Selection.

Module Shell.

Inductive dialog : Type :=
| information (title text : string)
| warning (title text : string)
| critical (title text : string).

Record MainWindow : Type := {
  state : Selection.SelectionState;
  merge_btn : bool;                 (* merge_btn.isEnabled() *)
  progress : Z;                     (* progress bar value *)
  music_slider : Z;
  original_slider : Z;
  keep_original_chk : bool;
  shown : list dialog;              (* message boxes, oldest first *)
  in_flight : list MergeWorker      (* started, outcome not yet delivered *)
}.

Definition set_state (w : MainWindow) (s : Selection.SelectionState) : MainWindow :=
  {| state := s; merge_btn := merge_btn w; progress := progress w;
     music_slider := music_slider w; original_slider := original_slider w;
     keep_original_chk := keep_original_chk w; shown := shown w;
     in_flight := in_flight w |}.

Definition set_merge_btn (w : MainWindow) (b : bool) : MainWindow :=
  {| state := state w; merge_btn := b; progress := progress w;
     music_slider := music_slider w; original_slider := original_slider w;
     keep_original_chk := keep_original_chk w; shown := shown w;
     in_flight := in_flight w |}.

Definition set_progress (w : MainWindow) (n : Z) : MainWindow :=
  {| state := state w; merge_btn := merge_btn w; progress := n;
     music_slider := music_slider w; original_slider := original_slider w;
     keep_original_chk := keep_original_chk w; shown := shown w;
     in_flight := in_flight w |}.

Definition show (w : MainWindow) (d : dialog) : MainWindow :=
  {| state := state w; merge_btn := merge_btn w; progress := progress w;
     music_slider := music_slider w; original_slider := original_slider w;
     keep_original_chk := keep_original_chk w; shown := shown w ++ [d];
     in_flight := in_flight w |}.

Definition set_in_flight (w : MainWindow) (l : list MergeWorker) : MainWindow :=
  {| state := state w; merge_btn := merge_btn w; progress := progress w;
     music_slider := music_slider w; original_slider := original_slider w;
     keep_original_chk := keep_original_chk w; shown := shown w;
     in_flight := l |}.

Definition set_controls (w : MainWindow) (music original : Z) (keep : bool) : MainWindow :=
  {| state := state w; merge_btn := merge_btn w; progress := progress w;
     music_slider := music; original_slider := original;
     keep_original_chk := keep; shown := shown w;
     in_flight := in_flight w |}.

(** Lines 262-417, [MainWindow.__init__]. *)
Definition init (g : Globals) : MainWindow :=
  let w :=
    {| state := {| Selection.video_path := None; Selection.audio_path := None;
                   Selection.output_path := None |};
       merge_btn := false; progress := 0;
       music_slider := 100; original_slider := 20; keep_original_chk := true;
       shown := []; in_flight := [] |} in
  match ENGINE g with
  | bundled_ffmpeg =>
      show w (information "Speed tip"
                "Bundled FFmpeg (slower). Install system FFmpeg for better speed.")
  | disabled =>
      show w (warning "FFmpeg missing" "Install FFmpeg to enable merging.")
  | system_ffmpeg => w
  end.

(** Lines 439-441. *)
Definition enable_merge_if_ready (g : Globals) (w : MainWindow) : MainWindow :=
  set_merge_btn w
    (truthy_opt (Selection.video_path (state w))
     && truthy_opt (Selection.audio_path (state w))
     && negb (engine_eqb (ENGINE g) disabled)).

(** Lines 419-427; [path] is what the file dialog returned. *)
Definition pick_video (g : Globals) (w : MainWindow) (path : string) : MainWindow :=
  if truthy path then
    enable_merge_if_ready g
      (set_state w {| Selection.video_path := Some path;
                      Selection.audio_path := Selection.audio_path (state w);
                      Selection.output_path := Selection.output_path (state w) |})
  else w.

(** Lines 429-437. *)
Definition pick_audio (g : Globals) (w : MainWindow) (path : string) : MainWindow :=
  if truthy path then
    enable_merge_if_ready g
      (set_state w {| Selection.video_path := Selection.video_path (state w);
                      Selection.audio_path := Some path;
                      Selection.output_path := Selection.output_path (state w) |})
  else w.

(** [slider.value() / 100.0] *)
Definition percent (n : Z) : float :=
  PrimFloat.div (PrimFloat.of_uint63 (Uint63.of_Z n)) 100%float.

(** Lines 503-504. *)
Definition with_mp4_extension (out_path : string) : string :=
  if negb (endswith (lower out_path) ".mp4")
  then (out_path ++ ".mp4")%string
  else out_path.

(** Lines 479-536; [answer] is what the save dialog returned.  Starting the
    thread puts the new worker in flight. *)
Definition merge_and_preview (g : Globals) (w : MainWindow) (answer : string) : MainWindow :=
  match Selection.video_path (state w), Selection.audio_path (state w) with
  | Some video, Some music =>
      if negb (truthy video && truthy music) then
        show w (warning "Missing files" "Select both video and music first.")
      else if engine_eqb (ENGINE g) disabled then
        show w (warning "FFmpeg missing" "Install FFmpeg to enable export.")
      else if negb (truthy answer) then w
      else
        let out_path := with_mp4_extension answer in
        let w1 := set_state w {| Selection.video_path := Some video;
                                 Selection.audio_path := Some music;
                                 Selection.output_path := Some out_path |} in
        let w2 := set_progress (set_merge_btn w1 false) 0 in
        let worker :=
          {| video_path := video; audio_path := music; output_path := out_path;
             music_level := percent (music_slider w2);
             original_level := percent (original_slider w2);
             duck := keep_original_chk w2 |} in
        set_in_flight w2 (in_flight w2 ++ [worker])
  | _, _ =>
      show w (warning "Missing files" "Select both video and music first.")
  end.

(** Lines 538-555. *)
Definition on_merge_finished (g : Globals) (w : MainWindow) (output_path : string) : MainWindow :=
  enable_merge_if_ready g
    (show w (information "Done"
               ("Merged video saved to:" ++ String "010"%char output_path))).

(** Lines 557-568. *)
Definition on_merge_failed (g : Globals) (w : MainWindow) (err : string) : MainWindow :=
  enable_merge_if_ready g (show w (critical "Merge failed" err)).

(** What can happen to the window.  A click reaches [merge_and_preview]
    only while the button is enabled; a terminal signal comes from one of
    the workers in flight and ends its flight. *)
Inductive action : Type :=
| select_video (answer : string)
| select_audio (answer : string)
| set_mixing (music original : Z) (keep : bool)
| click_merge (answer : string)
| deliver_progress (n : Z)
| deliver_finished (k : nat)
| deliver_failed (k : nat) (err : string).

Fixpoint remove_nth {A} (k : nat) (l : list A) : list A :=
  match k, l with
  | _, [] => []
  | O, _ :: rest => rest
  | S k', x :: rest => x :: remove_nth k' rest
  end.

Definition clamp (n : Z) : Z := Z.max 0 (Z.min 100 n).

Definition step (g : Globals) (w : MainWindow) (a : action) : MainWindow :=
  match a with
  | select_video answer => pick_video g w answer
  | select_audio answer => pick_audio g w answer
  | set_mixing music original keep => set_controls w (clamp music) (clamp original) keep
  | click_merge answer =>
      if merge_btn w then merge_and_preview g w answer else w
  | deliver_progress n => set_progress w n
  | deliver_finished k =>
      match nth_error (in_flight w) k with
      | Some worker =>
          on_merge_finished g (set_in_flight w (remove_nth k (in_flight w)))
                            (output_path worker)
      | None => w
      end
  | deliver_failed k err =>
      match nth_error (in_flight w) k with
      | Some _ => on_merge_failed g (set_in_flight w (remove_nth k (in_flight w))) err
      | None => w
      end
  end.

Definition session_from (g : Globals) (w : MainWindow) (actions : list action) : MainWindow :=
  fold_left (step g) actions w.

Definition session (g : Globals) (actions : list action) : MainWindow :=
  session_from g (init g) actions.

(** An action that does not change the selection while a job is in flight
    (a cancelled file dialog changes nothing). *)
Definition calm (w : MainWindow) (a : action) : Prop :=
  match a with
  | select_video answer | select_audio answer =>
      in_flight w = [] \/ truthy answer = false
  | _ => True
  end.

(** No job in flight while the button is enabled, and never two. *)
Definition serialized (w : MainWindow) : Prop :=
  (List.length (in_flight w) <= 1)%nat
  /\ (merge_btn w = true -> in_flight w = []).

Fixpoint calm_session (g : Globals) (w : MainWindow) (actions : list action) : Prop :=
  match actions with
  | [] => True
  | a :: rest => calm w a /\ calm_session g (step g w a) rest
  end.

(** Lines 584-589: the module is loaded, then the window is built.  An
    import that raises ends the program before [main] is reached. *)
Definition main (pk : Packages) (h : Host) : result (Globals * MainWindow) :=
  rbind (load pk h) (fun g => Ok (g, init g)).

End Shell.

(* ------------------------------------------------------------------ *)
(** * What the program relies on MoviePy for

    The sample-level effect of a MoviePy call is MoviePy's, not the
    program's.  Where a statement speaks of samples, the documented behaviour
    of the call involved is a hypothesis, stated here. *)

Module Contract.
Section Contract.
Variables audio video : Type.
Variable L : MoviePy audio video.

Fixpoint add_frames (a b : frame) : frame :=
  match a, b with
  | x :: a', y :: b' => PrimFloat.add x y :: add_frames a' b'
  | _, _ => []
  end.

(** [out] plays [clip] with every sample multiplied by [level]. *)
Definition scaled (level : float) (clip out : audio) : Prop :=
  forall t, get_frame L out t = List.map (fun x => PrimFloat.mul x level) (get_frame L clip t).

(** [clip.volumex(level)] scales. *)
Definition volumex_method_scales : Prop :=
  forall clip m level out,
    clip_volumex L clip = Method m -> m level = Ok out -> scaled level clip out.

(** [clip.fx(volumex, level)] scales. *)
Definition volumex_effect_scales : Prop :=
  forall clip m effect level out,
    volumex L = Some effect -> clip_fx L clip = Method m ->
    m effect level = Ok out -> scaled level clip out.

(** [clip.fl(f)] plays [f(clip.get_frame, t)] at time [t]. *)
Definition fl_transforms : Prop :=
  forall clip m f out,
    clip_fl L clip = Method m -> m f = Ok out ->
    forall t, get_frame L out t = f (get_frame L clip) t.

(** [CompositeAudioClip([a, b])] plays the sum of [a] and [b]. *)
Definition composite_adds : Prop :=
  forall a b out,
    CompositeAudioClip L [a; b] = Ok out ->
    forall t, get_frame L out t = add_frames (get_frame L a t) (get_frame L b t).

(** [audio_loop(clip, duration=d)] with a positive [d] lasts at least [d]. *)
Definition loop_covers : Prop :=
  forall loop clip d out,
    audio_loop L = Some loop -> PrimFloat.ltb 0%float d = true ->
    loop clip d = Ok out ->
    exists d', audio_duration L out = Some d' /\ PrimFloat.leb d d' = true.

End Contract.
End Contract.

(* ------------------------------------------------------------------ *)
(** * Concrete builds, hosts and requests

    [classic] offers every mechanism the program probes for, [bare] offers
    none of them, and [broken_loop] has a looping primitive that always
    raises.  All read the videos "clip.mp4" (ten seconds, with sound) and
    "silent.mp4" (no audio track) and the music file "song.mp3" (three
    seconds).  They serve to run the definitions and to instantiate the
    statements below. *)

Module Builds.

Record sound : Type := { samples : float -> frame; lasts : option float }.

Record picture : Type := {
  soundtrack : option sound;
  runs : option float;
  rate : option float
}.

Definition amplify (level : float) (c : sound) : sound :=
  {| samples := fun t => List.map (fun x => PrimFloat.mul x level) (samples c t);
     lasts := lasts c |}.

Definition mix (clips : list sound) : sound :=
  match clips with
  | [] => {| samples := fun _ => []; lasts := None |}
  | c :: rest =>
      fold_left
        (fun acc d =>
           {| samples := fun t => Contract.add_frames (samples acc t) (samples d t);
              lasts := lasts acc |})
        rest c
  end.

Definition song : sound :=
  {| samples := fun t => [t; 0.5%float]; lasts := Some 3%float |}.

Definition speech : sound :=
  {| samples := fun t => [1%float; t]; lasts := Some 10%float |}.

Definition movie : picture :=
  {| soundtrack := Some speech; runs := Some 10%float; rate := Some 30%float |}.

Definition silent_movie : picture :=
  {| soundtrack := None; runs := Some 10%float; rate := None |}.

Definition open_video (path : string) : result picture :=
  if String.eqb path "clip.mp4" then Ok movie
  else if String.eqb path "silent.mp4" then Ok silent_movie
  else Raise (Exception "OSError" "MoviePy error: the file could not be found").

Definition open_audio (path : string) : result sound :=
  if String.eqb path "song.mp3" then Ok song
  else Raise (Exception "OSError" "MoviePy error: the file could not be found").

Definition classic : MoviePy sound picture :=
  {| get_frame := samples;
     audio_duration := lasts;
     clip_volumex := fun c => Method (fun level => Ok (amplify level c));
     clip_fx := fun c => Method (fun effect level => effect c level);
     clip_fl := fun c => Method (fun f => Ok {| samples := f (samples c); lasts := lasts c |});
     audio_exit := fun _ _ => Ok false;
     volumex := Some (fun c level => Ok (amplify level c));
     audio_loop := Some (fun c d => Ok {| samples := samples c; lasts := Some d |});
     VideoFileClip := open_video;
     AudioFileClip := open_audio;
     CompositeAudioClip := fun clips => Ok (mix clips);
     duration := runs;
     fps := rate;
     audio_of := soundtrack;
     with_audio := fun v a => Ok {| soundtrack := Some a; runs := runs v; rate := rate v |};
     write_videofile := fun _ _ _ => Ok tt;
     video_exit := fun _ _ => Ok false |}.

Definition bare : MoviePy sound picture :=
  {| get_frame := samples;
     audio_duration := lasts;
     clip_volumex := fun _ => Missing;
     clip_fx := fun _ => Missing;
     clip_fl := fun _ => Missing;
     audio_exit := fun _ _ => Ok false;
     volumex := None;
     audio_loop := None;
     VideoFileClip := open_video;
     AudioFileClip := open_audio;
     CompositeAudioClip := fun clips => Ok (mix clips);
     duration := runs;
     fps := rate;
     audio_of := soundtrack;
     with_audio := fun v a => Ok {| soundtrack := Some a; runs := runs v; rate := rate v |};
     write_videofile := fun _ _ _ => Ok tt;
     video_exit := fun _ _ => Ok false |}.

(** A build whose looping primitive is bound and always raises. *)
Definition broken_loop : MoviePy sound picture :=
  {| get_frame := samples;
     audio_duration := lasts;
     clip_volumex := fun c => Method (fun level => Ok (amplify level c));
     clip_fx := fun _ => Missing;
     clip_fl := fun _ => Missing;
     audio_exit := fun _ _ => Ok false;
     volumex := None;
     audio_loop := Some (fun _ _ => Raise (Exception "ValueError" "loop failed"));
     VideoFileClip := open_video;
     AudioFileClip := open_audio;
     CompositeAudioClip := fun clips => Ok (mix clips);
     duration := runs;
     fps := rate;
     audio_of := soundtrack;
     with_audio := fun v a => Ok {| soundtrack := Some a; runs := runs v; rate := rate v |};
     write_videofile := fun _ _ _ => Ok tt;
     video_exit := fun _ _ => Ok false |}.

Definition system_host : Host :=
  {| which := fun name => if String.eqb name "ffmpeg" then Some "/usr/bin/ffmpeg" else None;
     get_ffmpeg_exe := Raise (Exception "RuntimeError" "No ffmpeg exe could be found.");
     path_exists := fun _ => false;
     inherited_exe := None |}.

Definition bundled_host : Host :=
  {| which := fun _ => None;
     get_ffmpeg_exe := Ok "/site-packages/imageio_ffmpeg/binaries/ffmpeg";
     path_exists := fun p => String.eqb p "/site-packages/imageio_ffmpeg/binaries/ffmpeg";
     inherited_exe := None |}.

Definition empty_host : Host :=
  {| which := fun _ => None;
     get_ffmpeg_exe := Raise (Exception "RuntimeError" "No ffmpeg exe could be found.");
     path_exists := fun _ => false;
     inherited_exe := None |}.

(** No FFmpeg anywhere, and the variable inherited with a path that does
    not exist: [get_ffmpeg_exe] hands that path back. *)
Definition preset_host : Host :=
  {| which := fun _ => None;
     get_ffmpeg_exe := Ok "/opt/old/ffmpeg";
     path_exists := fun _ => false;
     inherited_exe := Some "/opt/old/ffmpeg" |}.

(** Packages whose imports always go through. *)
Definition lenient_packages : Packages :=
  {| import_imageio_ffmpeg := Ok tt;
     import_moviepy := fun _ => Ok tt |}.

(** A MoviePy that looks for its FFmpeg executable while it is imported and
    raises when the environment names none. *)
Definition strict_packages : Packages :=
  {| import_imageio_ffmpeg := Ok tt;
     import_moviepy := fun g =>
       match IMAGEIO_FFMPEG_EXE g with
       | Some _ => Ok tt
       | None => Raise (Exception "RuntimeError" "No ffmpeg exe could be found.")
       end |}.

(** "song.mp3" at half volume, looped to the ten seconds of the videos. *)
Definition looped_song : sound :=
  {| samples := samples (amplify 0.5%float song); lasts := Some 10%float |}.

(** The globals after loading the module where FFmpeg is installed. *)
Definition ready : Globals := module_load system_host.

Definition request : MergeWorker :=
  {| video_path := "clip.mp4"; audio_path := "song.mp3"; output_path := "out.mp4";
     music_level := 0.5%float; original_level := 0.25%float; duck := true |}.

Definition silent_request : MergeWorker :=
  {| video_path := "silent.mp4"; audio_path := "song.mp3"; output_path := "out.mp4";
     music_level := 0.5%float; original_level := 0.25%float; duck := true |}.

(** A window with both files chosen, and the worker it starts when the user
    types "holiday" in the save dialog. *)
Definition chosen : Shell.MainWindow :=
  Shell.session ready [Shell.select_video "clip.mp4"; Shell.select_audio "song.mp3"].

Definition started : MergeWorker :=
  {| video_path := "clip.mp4"; audio_path := "song.mp3"; output_path := "holiday.mp4";
     music_level := Shell.percent 100; original_level := Shell.percent 20;
     duck := true |}.

(** Two merges one after the other. *)
Definition two_merges : list Shell.action :=
  [Shell.select_video "clip.mp4"; Shell.select_audio "song.mp3";
   Shell.click_merge "first.mp4"; Shell.deliver_progress 55;
   Shell.deliver_finished 0; Shell.select_video "other.mp4";
   Shell.click_merge "second.mp4"].

End Builds.

(* ------------------------------------------------------------------ *)
(** * Further definitions: the suggested name, readings of a run, and what
      is asked of a build or a request *)

Module Paths.

(** Lines 570-582, [MainWindow.suggest_output_path].  [os.path.splitext]
    depends on the platform and is left to the caller: it returns the pair
    (root, extension). *)
Definition suggest_output_path (splitext : string -> string * string)
    (video_path : string) : string :=
  let (base, _) := splitext video_path in
  (base ++ "_with_music.mp4")%string.

(** A file name cut at its last dot: (stem, extension with the dot), with
    an empty extension when the name has no dot. *)
Fixpoint cut_at_last_dot (p : string) : string * string :=
  match p with
  | EmptyString => (EmptyString, EmptyString)
  | String c rest =>
      let (base, ext) := cut_at_last_dot rest in
      match ext with
      | EmptyString =>
          if Ascii.eqb c "."%char then (EmptyString, String c base)
          else (String c base, EmptyString)
      | _ => (String c base, ext)
      end
  end.

(** A path cut after its last "/": (directory with the slash, file name). *)
Fixpoint cut_after_last_slash (p : string) : string * string :=
  match p with
  | EmptyString => (EmptyString, EmptyString)
  | String c rest =>
      let (dir, name) := cut_after_last_slash rest in
      match dir with
      | EmptyString =>
          if Ascii.eqb c "/"%char then (String c EmptyString, name)
          else (EmptyString, String c name)
      | _ => (String c dir, name)
      end
  end.

(** Some character of [s] is not a dot. *)
Fixpoint has_non_dot (s : string) : bool :=
  match s with
  | EmptyString => false
  | String c rest => negb (Ascii.eqb c "."%char) || has_non_dot rest
  end.

(** [posixpath.splitext], which is [os.path.splitext] on Linux and macOS:
    the extension starts at the last dot of the file name, unless only dots
    come before it in the file name. *)
Definition posix_splitext (p : string) : string * string :=
  let (dir, name) := cut_after_last_slash p in
  let (stem, ext) := cut_at_last_dot name in
  match ext with
  | EmptyString => (p, EmptyString)
  | _ => if has_non_dot stem then ((dir ++ stem)%string, ext) else (p, EmptyString)
  end.

End Paths.

Module Trace.
Section Trace.
Variables audio video : Type.

Abbreviation event := (Job.event audio video).

(** The percentages a run reported, in order. *)
Fixpoint progress_values (l : list event) : list Z :=
  match l with
  | [] => []
  | Job.progress_emit n :: rest => n :: progress_values rest
  | _ :: rest => progress_values rest
  end.

(** [xs] can be obtained from [ys] by dropping elements. *)
Fixpoint subsequence (xs ys : list Z) : bool :=
  match xs, ys with
  | [], _ => true
  | _ :: _, [] => false
  | x :: xs', y :: ys' =>
      if Z.eqb x y then subsequence xs' ys' else subsequence xs ys'
  end.

(** The events after the first one that satisfies [p]. *)
Fixpoint after_first (p : event -> bool) (l : list event) : list event :=
  match l with
  | [] => []
  | ev :: rest => if p ev then rest else after_first p rest
  end.

Definition closes_video (ev : event) : bool :=
  match ev with
  | Job.video_exit_call _ => true
  | _ => false
  end.

Definition closes_audio (ev : event) : bool :=
  match ev with
  | Job.audio_exit_call _ => true
  | _ => false
  end.

(** A Qt signal of the worker: touches no clip. *)
Definition signal (ev : event) : bool :=
  Job.milestone ev || Job.terminal ev.

Definition attaches (ev : event) : bool :=
  match ev with
  | Job.with_audio_call _ _ => true
  | _ => false
  end.

(** The [with_audio] calls of a run, in order. *)
Definition attached (l : list event) : list event := filter attaches l.

Variable L : MoviePy audio video.

(** What the specification has the job attach to the video [v] once [music]
    is prepared: with the ducking flag set and an embedded track, that track
    scaled by the original level through the Volume Adapter and combined with
    the music (nothing, if scaling or combining raises); in every other case
    the music alone. *)
Definition mixing (w : MergeWorker) (v : video) (music : audio) : list event :=
  match duck w, audio_of L v with
  | true, Some original =>
      match _safe_vol L original (original_level w) with
      | Ok bed =>
          match CompositeAudioClip L [bed; music] with
          | Ok mixed => [Job.with_audio_call v mixed]
          | Raise _ => []
          end
      | Raise _ => []
      end
  | _, _ => [Job.with_audio_call v music]
  end.

End Trace.
End Trace.

Module Assumptions.
Section Assumptions.
Variables audio video : Type.
Variable L : MoviePy audio video.

(** [__exit__] of a clip closes it and returns nothing: an exception raised
    in the body of a [with] is never swallowed. *)
Definition exits_do_not_swallow : Prop :=
  (forall a exc b, audio_exit L a exc = Ok b -> b = false)
  /\ (forall v exc b, video_exit L v exc = Ok b -> b = false).

(** A build without any of the three scaling mechanisms. *)
Definition no_mechanism : Prop :=
  (forall clip, clip_volumex L clip = Missing)
  /\ volumex L = None
  /\ (forall clip, clip_fl L clip = Missing).

End Assumptions.
End Assumptions.

Module Request.

(** [0.0 <= x <= 1.0] *)
Definition unit_interval (x : float) : Prop :=
  PrimFloat.leb 0%float x = true /\ PrimFloat.leb x 1%float = true.

(** A Merge Request as the data model describes it: both inputs named, an
    ".mp4" output, both levels in [0, 1]. *)
Definition well_formed (w : MergeWorker) : Prop :=
  truthy (video_path w) = true
  /\ truthy (audio_path w) = true
  /\ endswith (lower (output_path w)) ".mp4" = true
  /\ unit_interval (music_level w)
  /\ unit_interval (original_level w).

End Request.

Module Window.

(** Both sliders within the range given at lines 352 and 359. *)
Definition sliders_in_range (w : Shell.MainWindow) : Prop :=
  (0 <= Shell.music_slider w <= 100)%Z /\ (0 <= Shell.original_slider w <= 100)%Z.

(** The value [enable_merge_if_ready] gives the merge button. *)
Definition armed (g : Globals) (w : Shell.MainWindow) : bool :=
  truthy_opt (Selection.video_path (Shell.state w))
  && truthy_opt (Selection.audio_path (Shell.state w))
  && negb (engine_eqb (ENGINE g) disabled).

(** The only warning so far is the advisory of a start without engine, and
    the merge button is enabled only for a complete selection. *)
Definition quiet_guards (g : Globals) (w : Shell.MainWindow) : Prop :=
  (Shell.merge_btn w = true -> armed g w = true)
  /\ (forall title text, In (Shell.warning title text) (Shell.shown w) ->
        ENGINE g = disabled
        /\ title = "FFmpeg missing" /\ text = "Install FFmpeg to enable merging.").

End Window.

Module History.

(** A session up to the first click on the merge button, and the request of
    the second merge of [Builds.two_merges]. *)
Definition one_merge : list Shell.action :=
  [Shell.select_video "clip.mp4"; Shell.select_audio "song.mp3";
   Shell.click_merge "first.mp4"].

(** Both sliders at 100, ducking on. *)
Definition full_level_request : MergeWorker :=
  {| video_path := "clip.mp4"; audio_path := "song.mp3"; output_path := "out.mp4";
     music_level := Shell.percent 100; original_level := Shell.percent 100;
     duck := true |}.

Definition second_request : MergeWorker :=
  {| video_path := "other.mp4"; audio_path := "song.mp3"; output_path := "second.mp4";
     music_level := Shell.percent 100; original_level := Shell.percent 20;
     duck := true |}.

(** The last file a sequence of actions chose for the video (a cancelled
    dialog chooses nothing), starting from [chosen]. *)
Fixpoint last_video (chosen : option string) (actions : list Shell.action) : option string :=
  match actions with
  | [] => chosen
  | Shell.select_video answer :: rest =>
      last_video (if truthy answer then Some answer else chosen) rest
  | _ :: rest => last_video chosen rest
  end.

Fixpoint last_audio (chosen : option string) (actions : list Shell.action) : option string :=
  match actions with
  | [] => chosen
  | Shell.select_audio answer :: rest =>
      last_audio (if truthy answer then Some answer else chosen) rest
  | _ :: rest => last_audio chosen rest
  end.

End History.

(* ------------------------------------------------------------------ *)
(** * Facts about binary64 arithmetic *)

Module FloatFacts.
Local Open Scope Z_scope.

(** The number one: mantissa [2^52], exponent [-52]. *)
Lemma Prim2SF_one : Prim2SF 1%float = S754_finite false 4503599627370496 (-52).
Proof. reflexivity. Qed.

Lemma digits2_pos_shift52 (m : positive) :
  Z.pos (digits2_pos (4503599627370496 * m)) = Z.pos (digits2_pos m) + 52.
Proof. cbn [Pos.mul digits2_pos]. lia. Qed.

Lemma shr_shift52 (m : positive) :
  iter_pos shr_1 52
    {| shr_m := Z.pos (4503599627370496 * m); shr_r := false; shr_s := false |}
  = {| shr_m := Z.pos m; shr_r := false; shr_s := false |}.
Proof. reflexivity. Qed.

(** Multiplying a representable number by one rounds back to itself. *)
Lemma SF64mul_one_r (x : spec_float) :
  SpecFloat.valid_binary prec emax x = true ->
  SF64mul x (S754_finite false 4503599627370496 (-52)) = x.
Proof.
  destruct x as [s | s | | s m e]; cbn [SpecFloat.valid_binary]; intros Hv.
  - cbn. now rewrite xorb_false_r.
  - cbn. now rewrite xorb_false_r.
  - reflexivity.
  - unfold bounded, canonical_mantissa in Hv.
    apply andb_prop in Hv. destruct Hv as [Hc Hb].
    apply Z.eqb_eq in Hc.
    unfold SF64mul, SFmul.
    rewrite xorb_false_r, (Pos.mul_comm m).
    unfold binary_round_aux, shr_fexp.
    unfold Zdigits2 at 1. rewrite digits2_pos_shift52.
    replace (Z.pos (digits2_pos m) + 52 + (e + -52))
      with (Z.pos (digits2_pos m) + e) by lia.
    rewrite Hc.
    replace (e - (e + -52)) with 52 by lia.
    unfold shr at 1. cbn [shr_record_of_loc]. rewrite shr_shift52.
    cbn [shr_m loc_of_shr_record round_nearest_even].
    replace (e + -52 + 52) with e by lia.
    unfold Zdigits2. rewrite Hc, Z.sub_diag.
    cbn [shr shr_record_of_loc shr_m].
    now rewrite Hb.
Qed.

Lemma mul_one_r (x : float) : PrimFloat.mul x 1%float = x.
Proof.
  apply Prim2SF_inj. rewrite mul_spec, Prim2SF_one.
  apply SF64mul_one_r, Prim2SF_valid.
Qed.

Lemma map_mul_one (f : frame) : List.map (fun x => PrimFloat.mul x 1%float) f = f.
Proof.
  induction f as [| x f IH]; cbn [List.map].
  - reflexivity.
  - now rewrite mul_one_r, IH.
Qed.

(** [0 < d] excludes [d == 0]. *)
Lemma positive_not_zero (d : float) :
  PrimFloat.ltb 0%float d = true -> PrimFloat.eqb d 0%float = false.
Proof.
  rewrite ltb_spec, eqb_spec.
  change (Prim2SF 0%float) with (S754_zero false).
  unfold SFltb, SFeqb.
  destruct (Prim2SF d) as [s | s | | s m e]; cbn [SFcompare];
    try destruct s; try discriminate; reflexivity.
Qed.

Lemma float_or_positive (d dflt : float) :
  PrimFloat.ltb 0%float d = true -> float_or (Some d) dflt = d.
Proof.
  intros H. unfold float_or. now rewrite (positive_not_zero H).
Qed.

(** A positive number is not a NaN, so it compares equal to itself. *)
Lemma leb_refl_of_positive (d : float) :
  PrimFloat.ltb 0%float d = true -> PrimFloat.leb d d = true.
Proof.
  rewrite ltb_spec, leb_spec.
  change (Prim2SF 0%float) with (S754_zero false).
  unfold SFltb, SFleb.
  destruct (Prim2SF d) as [s | s | | s m e]; cbn [SFcompare];
    try destruct s; try discriminate; try reflexivity.
  intros _. now rewrite Z.compare_refl, Pos.compare_cont_refl.
Qed.

End FloatFacts.

(* ------------------------------------------------------------------ *)
(** * Facts about strings *)

Module StringFacts.

Lemma lower_app (s t : string) : lower (s ++ t) = (lower s ++ lower t)%string.
Proof.
  induction s as [| c s IH]; cbn [lower String.append].
  - reflexivity.
  - now rewrite IH.
Qed.

Lemma endswith_refl (s : string) : endswith s s = true.
Proof.
  destruct s; cbn [endswith]; now rewrite String.eqb_refl.
Qed.

Lemma endswith_app (s t : string) : endswith (s ++ t) t = true.
Proof.
  induction s as [| c s IH]; cbn [String.append].
  - apply endswith_refl.
  - cbn [endswith]. rewrite IH. apply orb_true_r.
Qed.

Lemma lower_endswith_mp4 (s : string) : endswith (lower (s ++ ".mp4")) ".mp4" = true.
Proof.
  rewrite lower_app. apply endswith_app.
Qed.

End StringFacts.

(* ------------------------------------------------------------------ *)
(** * Media Engine Locator *)

Lemma truthy_opt_false_fallback (h : Host) (g : Globals) :
  truthy_opt (which h "ffmpeg") = false ->
  ensure_ffmpeg_available h g =
  match bundled_probe h with
  | Some p => (Ok p, set_ENGINE g bundled_ffmpeg)
  | None => (Raise (FileNotFoundError no_ffmpeg_message), set_ENGINE g disabled)
  end.
Proof.
  unfold ensure_ffmpeg_available, truthy_opt.
  destruct (which h "ffmpeg") as [p |]; [intros -> |]; reflexivity.
Qed.

Lemma both_probes_fail (h : Host) :
  truthy_opt (which h "ffmpeg") = false ->
  ((exists e, get_ffmpeg_exe h = Raise e) \/
   (exists p, get_ffmpeg_exe h = Ok p /\ path_exists h p = false)) ->
  forall g,
    ensure_ffmpeg_available h g
    = (Raise (FileNotFoundError no_ffmpeg_message), set_ENGINE g disabled).
Proof.
  intros Hw Hb g. rewrite (truthy_opt_false_fallback h g Hw).
  unfold bundled_probe.
  destruct Hb as [[e He] | [p [Hg He]]].
  - now rewrite He.
  - now rewrite Hg, He.
Qed.

(** X21.  The locator looks on the search path first: a hit makes [ENGINE]
    "system-ffmpeg" and is returned, whatever the bundled copy would give.
    Only without a hit it resolves the bundled copy and accepts it exactly
    when that path exists, making [ENGINE] "bundled-ffmpeg".  When both fail
    it raises [FileNotFoundError] with [ENGINE] "disabled"; the module-level
    handler catches that and records the text.  Start-up then goes on exactly
    as far as the two unguarded imports do: if they go through, [main]
    builds the window with the merge button disabled and one warning; if the
    MoviePy import raises, that exception ends the program. *)
Theorem locator_prefers_system_then_bundled :
  forall (h : Host) (g : Globals),
    (forall p, which h "ffmpeg" = Some p -> truthy p = true ->
       ensure_ffmpeg_available h g = (Ok p, set_ENGINE g system_ffmpeg))
    /\
    (truthy_opt (which h "ffmpeg") = false ->
       forall p, get_ffmpeg_exe h = Ok p -> path_exists h p = true ->
       ensure_ffmpeg_available h g = (Ok p, set_ENGINE g bundled_ffmpeg))
    /\
    (truthy_opt (which h "ffmpeg") = false ->
       ((exists e, get_ffmpeg_exe h = Raise e) \/
        (exists p, get_ffmpeg_exe h = Ok p /\ path_exists h p = false)) ->
       ensure_ffmpeg_available h g
         = (Raise (FileNotFoundError no_ffmpeg_message), set_ENGINE g disabled)
       /\ ENGINE (module_load h) = disabled
       /\ FFMPEG_ERROR (module_load h) = Some no_ffmpeg_message
       /\ (forall pk,
             import_imageio_ffmpeg pk = Ok tt ->
             import_moviepy pk (module_load h) = Ok tt ->
             exists w,
               Shell.main pk h = Ok (module_load h, w)
               /\ Shell.merge_btn w = false
               /\ Shell.shown w
                  = [Shell.warning "FFmpeg missing" "Install FFmpeg to enable merging."])
       /\ (forall pk e,
             import_imageio_ffmpeg pk = Ok tt ->
             import_moviepy pk (module_load h) = Raise e ->
             Shell.main pk h = Raise e)).
Proof.
  intros h g. split; [| split].
  - intros p Hw Ht. unfold ensure_ffmpeg_available. now rewrite Hw, Ht.
  - intros Hw p Hg He. rewrite (truthy_opt_false_fallback h g Hw).
    unfold bundled_probe. now rewrite Hg, He.
  - intros Hw Hb.
    assert (Hm : module_load h =
                 {| FFMPEG_ERROR := Some no_ffmpeg_message; ENGINE := disabled;
                    IMAGEIO_FFMPEG_EXE := inherited_exe h |}).
    { unfold module_load. now rewrite (both_probes_fail h Hw Hb). }
    split; [exact (both_probes_fail h Hw Hb g) |].
    split; [now rewrite Hm |]. split; [now rewrite Hm |]. split.
    + intros pk H21 H67. unfold Shell.main, load. rewrite H21. cbn [rbind].
      rewrite H67. cbn [rbind]. eexists. split; [reflexivity |].
      rewrite Hm. split; reflexivity.
    + intros pk e H21 H67. unfold Shell.main, load. rewrite H21. cbn [rbind].
      now rewrite H67.
Qed.

Lemma locator_prefers_system_then_bundled_witness :
  ensure_ffmpeg_available Builds.system_host (module_globals Builds.system_host)
    = (Ok "/usr/bin/ffmpeg", set_ENGINE (module_globals Builds.system_host) system_ffmpeg)
  /\ ensure_ffmpeg_available Builds.bundled_host (module_globals Builds.bundled_host)
    = (Ok "/site-packages/imageio_ffmpeg/binaries/ffmpeg",
       set_ENGINE (module_globals Builds.bundled_host) bundled_ffmpeg)
  /\ ENGINE (module_load Builds.preset_host) = disabled.
Proof.
  split; [| split].
  - apply (proj1 (locator_prefers_system_then_bundled
                    Builds.system_host (module_globals Builds.system_host)));
      reflexivity.
  - apply (proj1 (proj2 (locator_prefers_system_then_bundled
                           Builds.bundled_host (module_globals Builds.bundled_host))));
      reflexivity.
  - apply (proj2 (proj2 (locator_prefers_system_then_bundled
                           Builds.preset_host (module_globals Builds.preset_host)))).
    + reflexivity.
    + right. eexists. split; reflexivity.
Defined.

(** C3 fails on the program at its last clause.  Where neither a system nor a
    bundled FFmpeg is found the locator does leave [ENGINE] "disabled" and its
    error is caught and recorded; but the import of MoviePy on line 67 follows
    outside any [try], and with a MoviePy that raises at import when no
    executable is configured the program ends there: no window is built.
    With imports that go through, the same host starts in degraded mode. *)
Theorem unguarded_import_aborts_the_degraded_start :
  let h := Builds.empty_host in
  let g := module_load h in
  (ENGINE g = disabled /\ FFMPEG_ERROR g = Some no_ffmpeg_message
   /\ IMAGEIO_FFMPEG_EXE g = None)
  /\ Shell.main Builds.strict_packages h
     = Raise (Exception "RuntimeError" "No ffmpeg exe could be found.")
  /\ Shell.main Builds.lenient_packages h = Ok (g, Shell.init g).
Proof.
  cbv zeta. repeat split.
Qed.

(* ------------------------------------------------------------------ *)
(** * Volume Adapter *)

(** On a build that offers nothing, only the level 1.0 goes through. *)
Example safe_vol_bare_half :
  _safe_vol Builds.bare Builds.song 0.5%float = Raise volume_unavailable.
Proof. reflexivity. Qed.

Example safe_vol_bare_one :
  _safe_vol Builds.bare Builds.song 1%float = Ok Builds.song.
Proof. reflexivity. Qed.

Example safe_vol_classic_half :
  _safe_vol Builds.classic Builds.song 0.5%float = Ok (Builds.amplify 0.5%float Builds.song).
Proof. reflexivity. Qed.

Example near_one_examples :
  near_one 0x1.0000000000001p0%float = true
  /\ near_one 0x1.000001p0%float = false
  /\ near_one PrimFloat.nan = false
  /\ near_one 0%float = false.
Proof. repeat split. Qed.

Section VolumeProofs.
Variables audio video : Type.
Variable L : MoviePy audio video.

(** Each [try] block of [_safe_vol] returns exactly when the mechanism it
    probes is offered by the build and does not raise. *)
Lemma method1_mechanism (clip : audio) (level : float) :
  method1 L clip level =
  match direct_scaling_method L clip level with
  | Some (Ok c) => Some c
  | _ => None
  end.
Proof.
  unfold method1, direct_scaling_method, try_pass, returning, invoke, hasattr, rbind.
  destruct (clip_volumex L clip) as [| | m]; try reflexivity.
  destruct (m level); reflexivity.
Qed.

Lemma method2_mechanism (clip : audio) (level : float) :
  method2 L clip level =
  match named_effect_function L clip level with
  | Some (Ok c) => Some c
  | _ => None
  end.
Proof.
  unfold method2, named_effect_function, try_pass, returning, invoke, rbind.
  destruct (volumex L) as [effect |]; try reflexivity.
  destruct (clip_fx L clip) as [| | m]; try reflexivity.
  destruct (m effect level); reflexivity.
Qed.

Lemma method3_mechanism (clip : audio) (level : float) :
  method3 L clip level =
  match manual_transform L clip level with
  | Some (Ok c) => Some c
  | _ => None
  end.
Proof.
  unfold method3, manual_transform, try_pass, returning, invoke, hasattr, callable, rbind.
  destruct (clip_fl L clip) as [| | m]; try reflexivity.
  cbn [andb]. unfold scale_frames.
  destruct (m _); reflexivity.
Qed.

(** C1.  [_safe_vol] is the fallback chain of the specification: the native
    [volumex] method, then [clip.fx(volumex, level)], then the per-sample
    transform through [clip.fl], in this order; the answer is the result of
    the first that does not raise; when none succeeds the clip itself is
    returned if [abs(level - 1.0) < 1e-9] and [RuntimeError] is raised
    otherwise. *)
Theorem safe_vol_is_ordered_fallback_chain :
  forall (clip : audio) (level : float),
    _safe_vol L clip level = adapter_contract L clip level.
Proof.
  intros clip level.
  unfold _safe_vol, adapter_contract, mechanisms.
  cbn [first_success].
  rewrite method1_mechanism, method2_mechanism, method3_mechanism.
  destruct (direct_scaling_method L clip level) as [[c1 | e1] |];
    destruct (named_effect_function L clip level) as [[c2 | e2] |];
    destruct (manual_transform L clip level) as [[c3 | e3] |];
    reflexivity.
Qed.

(** At level 1.0 the chain never ends in the error. *)
Lemma near_one_one : near_one 1%float = true.
Proof. reflexivity. Qed.

Lemma scaled_by_one (clip out : audio) :
  Contract.scaled L 1%float clip out ->
  forall t, get_frame L out t = get_frame L clip t.
Proof.
  intros H t. rewrite (H t). apply FloatFacts.map_mul_one.
Qed.

(** C7.  With level 1.0 the adapter always returns a clip, and that clip
    plays the samples of the input unchanged: each MoviePy mechanism
    multiplies by 1.0 (its documented behaviour, assumed of the build),
    which is the identity on binary64 numbers, and when no mechanism works
    the input itself is returned. *)
Theorem safe_vol_at_one_is_identity_on_samples :
  Contract.volumex_method_scales L ->
  Contract.volumex_effect_scales L ->
  Contract.fl_transforms L ->
  forall clip : audio,
  exists out,
    _safe_vol L clip 1%float = Ok out /\
    forall t, get_frame L out t = get_frame L clip t.
Proof.
  intros Hnative Heffect Hfl clip.
  unfold _safe_vol.
  destruct (method1 L clip 1%float) as [c |] eqn:H1.
  { exists c. split; [reflexivity |].
    apply scaled_by_one.
    unfold method1, try_pass, returning, invoke, hasattr, rbind in H1.
    destruct (clip_volumex L clip) as [| | m] eqn:Ha; try discriminate.
    destruct (m 1%float) as [c' | e] eqn:Hm; try discriminate.
    injection H1 as <-. exact (Hnative clip m _ c' Ha Hm). }
  destruct (method2 L clip 1%float) as [c |] eqn:H2.
  { exists c. split; [reflexivity |].
    apply scaled_by_one.
    unfold method2, try_pass, returning, invoke, rbind in H2.
    destruct (volumex L) as [effect |] eqn:Hv; try discriminate.
    destruct (clip_fx L clip) as [| | m] eqn:Ha; try discriminate.
    destruct (m effect 1%float) as [c' | e] eqn:Hm; try discriminate.
    injection H2 as <-. exact (Heffect clip m effect _ c' Hv Ha Hm). }
  destruct (method3 L clip 1%float) as [c |] eqn:H3.
  { exists c. split; [reflexivity |].
    unfold method3, try_pass, returning, invoke, hasattr, callable, rbind in H3.
    destruct (clip_fl L clip) as [| | m] eqn:Ha; try discriminate.
    cbn [andb] in H3.
    destruct (m (scale_frames 1%float)) as [c' | e] eqn:Hm; try discriminate.
    injection H3 as <-. intros t.
    rewrite (Hfl clip m _ c' Ha Hm t).
    unfold scale_frames. apply FloatFacts.map_mul_one. }
  exists clip. rewrite near_one_one. split; reflexivity.
Qed.

End VolumeProofs.

Lemma classic_volumex_method_scales : Contract.volumex_method_scales Builds.classic.
Proof.
  intros clip m level out Ha Hm. cbn in Ha. injection Ha as <-.
  injection Hm as <-. intros t. reflexivity.
Qed.

Lemma classic_volumex_effect_scales : Contract.volumex_effect_scales Builds.classic.
Proof.
  intros clip m effect level out Hv Ha Hm. cbn in Hv, Ha.
  injection Hv as <-. injection Ha as <-. injection Hm as <-.
  intros t. reflexivity.
Qed.

Lemma classic_fl_transforms : Contract.fl_transforms Builds.classic.
Proof.
  intros clip m f out Ha Hm. cbn in Ha. injection Ha as <-.
  injection Hm as <-. intros t. reflexivity.
Qed.

Lemma safe_vol_at_one_is_identity_on_samples_witness :
  exists out,
    _safe_vol Builds.classic Builds.song 1%float = Ok out /\
    forall t, get_frame Builds.classic out t = get_frame Builds.classic Builds.song t.
Proof.
  apply (safe_vol_at_one_is_identity_on_samples
           classic_volumex_method_scales
           classic_volumex_effect_scales
           classic_fl_transforms).
Defined.

(* ------------------------------------------------------------------ *)
(** * Merge Job *)

(** A run that goes through, and one that cannot open its video. *)
Example run_classic_milestones :
  filter (@Job.milestone _ _) (Job.run Builds.classic Builds.ready Builds.request)
  = [Job.progress_emit 5; Job.progress_emit 20; Job.progress_emit 55; Job.progress_emit 100]
  /\ filter (@Job.terminal _ _) (Job.run Builds.classic Builds.ready Builds.request)
    = [Job.finished_emit "out.mp4"].
Proof. split; reflexivity. Qed.

Example run_missing_video :
  Job.run Builds.classic Builds.ready
    {| video_path := "gone.mp4"; audio_path := "song.mp3"; output_path := "out.mp4";
       music_level := 1%float; original_level := 1%float; duck := false |}
  = [Job.progress_emit 5; Job.VideoFileClip_call "gone.mp4";
     Job.failed_emit "MoviePy error: the file could not be found"].
Proof. reflexivity. Qed.

(** On the build without mechanisms the default mixing levels fail the job at
    the original track. *)
Example run_bare_default_levels :
  filter (@Job.terminal _ _)
    (Job.run Builds.bare Builds.ready
       {| video_path := "clip.mp4"; audio_path := "song.mp3"; output_path := "out.mp4";
          music_level := Shell.percent 100; original_level := Shell.percent 20;
          duck := true |})
  = [Job.failed_emit "Volume effect not available in this MoviePy build."].
Proof. reflexivity. Qed.

Section JobProofs.
Variables audio video : Type.
Variable L : MoviePy audio video.

Abbreviation event := (Job.event audio video).
Abbreviation M := (Job.M audio video).

(** ** Where the events of a compound statement come from *)

Lemma in_bind {A B} (m : M A) (k : A -> M B) (ev : event) :
  In ev (fst (Job.bind m k)) ->
  In ev (fst m) \/ exists a, snd m = Ok a /\ In ev (fst (k a)).
Proof.
  destruct m as [l [a | e]]; cbn [Job.bind fst snd].
  - destruct (k a) as [l' r] eqn:Hk. cbn [fst]. intros H.
    apply in_app_or in H. destruct H as [H | H]; [now left |].
    right. exists a. rewrite Hk. now split.
  - now left.
Qed.

Lemma in_with {R} (enter : M R) (exit_ : R -> option exn -> M bool)
    (body : R -> M unit) (ev : event) :
  In ev (fst (Job.with_ enter exit_ body)) ->
  In ev (fst enter) \/
  exists r, snd enter = Ok r /\
    (In ev (fst (body r)) \/ exists exc, In ev (fst (exit_ r exc))).
Proof.
  unfold Job.with_. intros H. apply in_bind in H.
  destruct H as [H | [r [Hr H]]]; [now left |].
  right. exists r. split; [exact Hr |].
  destruct (body r) as [l [u | e]]; apply in_bind in H;
    cbn [fst snd] in *; destruct H as [H | [_ [_ H]]]; try (now left);
    apply in_bind in H; destruct H as [H | [b [_ H]]].
  - right. now exists None.
  - destruct H.
  - right. now exists (Some e).
  - destruct b; destruct H.
Qed.

(** ** Events that are not terminal signals *)

Abbreviation quiet := (@Job.quiet audio video).

Lemma quiet_bind {A B} (m : M A) (k : A -> M B) :
  quiet (fst m) -> (forall a, quiet (fst (k a))) -> quiet (fst (Job.bind m k)).
Proof.
  intros Hm Hk ev H. apply in_bind in H.
  destruct H as [H | [a [_ H]]]; [now apply Hm | now apply (Hk a)].
Qed.

Lemma quiet_with {R} (enter : M R) (exit_ : R -> option exn -> M bool)
    (body : R -> M unit) :
  quiet (fst enter) -> (forall r exc, quiet (fst (exit_ r exc))) ->
  (forall r, quiet (fst (body r))) ->
  quiet (fst (Job.with_ enter exit_ body)).
Proof.
  intros He Hx Hb ev H. apply in_with in H.
  destruct H as [H | [r [_ [H | [exc H]]]]].
  - now apply He.
  - now apply (Hb r).
  - now apply (Hx r exc).
Qed.

Lemma quiet_nil : quiet [].
Proof. intros ev []. Qed.

Lemma quiet_one (ev : event) : Job.terminal ev = false -> quiet [ev].
Proof. intros H ev' [<- | []]. exact H. Qed.

Lemma quiet_attach (w : MergeWorker) (v : video) (o : option audio) (music : audio) :
  quiet (fst (Job.attach_audio L w v o music)).
Proof.
  unfold Job.attach_audio.
  destruct (duck w); [destruct o as [original |] |];
    try (apply quiet_one; reflexivity).
  apply quiet_bind; [apply quiet_nil | intros bed].
  apply quiet_bind; [apply quiet_nil | intros mixed].
  apply quiet_one; reflexivity.
Qed.

Lemma quiet_music_block (w : MergeWorker) (v : video) (dur v_fps : float)
    (o : option audio) (music0 : audio) :
  quiet (fst (Job.music_block L w v dur v_fps o music0)).
Proof.
  unfold Job.music_block.
  apply quiet_bind; [apply quiet_nil | intros music].
  apply quiet_bind; [apply quiet_attach | intros merged].
  apply quiet_bind; apply quiet_one || intros _; try reflexivity.
  apply quiet_one; reflexivity.
Qed.

Lemma quiet_video_block (w : MergeWorker) (v : video) :
  quiet (fst (Job.video_block L w v)).
Proof.
  unfold Job.video_block.
  apply quiet_bind; [apply quiet_one; reflexivity | intros _].
  apply quiet_with.
  - apply quiet_one; reflexivity.
  - intros a exc. apply quiet_one; reflexivity.
  - intros music0. apply quiet_music_block.
Qed.

Lemma quiet_work (g : Globals) (w : MergeWorker) : quiet (fst (Job.work L g w)).
Proof.
  unfold Job.work.
  apply quiet_bind; [destruct (engine_eqb _ _); apply quiet_nil | intros _].
  apply quiet_bind; [apply quiet_one; reflexivity | intros _].
  apply quiet_with.
  - apply quiet_one; reflexivity.
  - intros v exc. apply quiet_one; reflexivity.
  - intros v. apply quiet_video_block.
Qed.

Lemma filter_quiet (l : list event) : quiet l -> filter (@Job.terminal audio video) l = [].
Proof.
  induction l as [| ev l IH]; intros H; cbn [filter].
  - reflexivity.
  - rewrite (H ev (or_introl eq_refl)). apply IH.
    intros ev' Hin. apply H. now right.
Qed.

(** How [run] ends, by how the work ended. *)
Lemma run_by_outcome (g : Globals) (w : MergeWorker) :
  Job.run_statement L g w =
  match snd (Job.work L g w) with
  | Ok _ =>
      (fst (Job.work L g w)
         ++ [Job.progress_emit 100; Job.finished_emit (output_path w)], Ok tt)
  | Raise e =>
      (fst (Job.work L g w) ++ [Job.failed_emit (str e)], Ok tt)
  end.
Proof.
  unfold Job.run_statement.
  destruct (Job.work L g w) as [l [[] | e]]; reflexivity.
Qed.

(** C4.  A run never lets an exception escape and emits exactly one
    terminal signal, as its last event: [finished] with the output path when
    the work went through, [failed] with [str(e)] for the exception [e]
    that ended the work, at whatever stage it was raised. *)
Theorem run_emits_exactly_one_terminal_signal :
  forall (g : Globals) (w : MergeWorker),
    snd (Job.run_statement L g w) = Ok tt
    /\ List.length (filter (@Job.terminal audio video) (Job.run L g w)) = 1%nat
    /\ exists before,
         quiet before /\
         ((exists u, snd (Job.work L g w) = Ok u /\
             Job.run L g w = before ++ [Job.finished_emit (output_path w)])
          \/
          (exists e, snd (Job.work L g w) = Raise e /\
             Job.run L g w = before ++ [Job.failed_emit (str e)])).
Proof.
  intros g w. unfold Job.run. rewrite run_by_outcome.
  pose proof (quiet_work g w) as Hq.
  destruct (snd (Job.work L g w)) as [u | e]; cbn [fst snd].
  - split; [reflexivity |]. split.
    + rewrite filter_app, (filter_quiet Hq). reflexivity.
    + exists (fst (Job.work L g w) ++ [Job.progress_emit 100]). split.
      * intros ev H. apply in_app_or in H. destruct H as [H | [<- | []]].
        -- now apply Hq.
        -- reflexivity.
      * left. exists u. split; [reflexivity |].
        now rewrite <- app_assoc.
  - split; [reflexivity |]. split.
    + rewrite filter_app, (filter_quiet Hq). reflexivity.
    + exists (fst (Job.work L g w)). split; [exact Hq |].
      right. exists e. split; reflexivity.
Qed.

(** C6.  With [ENGINE] "disabled" a run consists of one event, the [failed]
    signal with the text "FFmpeg unavailable.": no input is opened and no
    progress is reported. *)
Theorem run_without_engine_fails_at_once :
  forall (g : Globals) (w : MergeWorker),
    ENGINE g = disabled ->
    Job.run L g w = [Job.failed_emit "FFmpeg unavailable."]
    /\ filter (@Job.loads_input audio video) (Job.run L g w) = []
    /\ filter (@Job.milestone audio video) (Job.run L g w) = [].
Proof.
  intros g w Hg.
  assert (H : Job.run L g w = [Job.failed_emit "FFmpeg unavailable."]).
  { unfold Job.run, Job.run_statement, Job.work. rewrite Hg. reflexivity. }
  rewrite H. repeat split.
Qed.

End JobProofs.

Lemma run_without_engine_fails_at_once_witness :
  Job.run Builds.classic (module_load Builds.empty_host) Builds.request
    = [Job.failed_emit "FFmpeg unavailable."]
  /\ filter (@Job.loads_input _ _)
       (Job.run Builds.classic (module_load Builds.empty_host) Builds.request) = []
  /\ filter (@Job.milestone _ _)
       (Job.run Builds.classic (module_load Builds.empty_host) Builds.request) = [].
Proof.
  apply (run_without_engine_fails_at_once Builds.classic
           (module_load Builds.empty_host) Builds.request).
  reflexivity.
Defined.

(** A run is decided by finitely many outcomes: the engine check, each
    MoviePy call, each [__exit__].  [run_cases] opens the run and splits on
    all of them, keeping the equations. *)
Ltac open_run :=
  unfold Job.run, Job.run_statement, Job.work, Job.video_block, Job.music_block,
    Job.attach_audio, Job.with_, Job.bind, Job.try_except, Job.call, Job.lift,
    Job.emit, Job.ret, Job.raise.

Ltac split_outcomes :=
  repeat match goal with
         | |- context [match ?r with Ok _ => _ | Raise _ => _ end] => destruct r eqn:?
         | |- context [match ?o with Some _ => _ | None => _ end] => destruct o eqn:?
         | |- context [if ?b then _ else _] => destruct b eqn:?
         | |- context [let (_, _) := ?p in _] => destruct p eqn:?
         end.

Ltac run_cases := open_run; split_outcomes.

Section JobStages.
Variables audio video : Type.
Variable L : MoviePy audio video.

Abbreviation event := (Job.event audio video).
Abbreviation M := (Job.M audio video).

Abbreviation prepared_music := (Job.prepared_music L).

Lemma in_try_except {A} (m : M A) (h : exn -> M A) (ev : event) :
  In ev (fst (Job.try_except m h)) ->
  In ev (fst m) \/ exists e, snd m = Raise e /\ In ev (fst (h e)).
Proof.
  destruct m as [l [a | e]]; cbn [Job.try_except fst snd].
  - now left.
  - destruct (h e) as [l' r] eqn:Hh. cbn [fst]. intros H.
    apply in_app_or in H. destruct H as [H | H]; [now left |].
    right. exists e. rewrite Hh. now split.
Qed.

(** What [attach_audio] hands to [with_audio]. *)
Lemma attach_audio_event (w : MergeWorker) (v v' : video) (o : option audio)
    (music a : audio) :
  In (Job.with_audio_call v' a) (fst (Job.attach_audio L w v o music)) ->
  v' = v /\
  match duck w, o with
  | true, Some original =>
      exists bed,
        _safe_vol L original (original_level w) = Ok bed /\
        CompositeAudioClip L [bed; music] = Ok a
  | _, _ => a = music
  end.
Proof.
  unfold Job.attach_audio.
  assert (Hplain : In (Job.with_audio_call v' a)
                     (fst (Job.call (Job.with_audio_call v music) (with_audio L v music))) ->
                   v' = v /\ a = music).
  { cbn. intros [H | []]. injection H as -> ->. now split. }
  destruct (duck w); [destruct o as [original |] |]; try exact Hplain.
  intros H. apply in_bind in H. cbn [Job.lift fst snd] in H.
  destruct H as [[] | [bed [Hbed H]]].
  apply in_bind in H. cbn [Job.lift fst snd] in H.
  destruct H as [[] | [mixed [Hmixed H]]].
  cbn in H. destruct H as [H | []]. injection H as -> ->.
  split; [reflexivity |]. exists bed. now split.
Qed.

(** Every [with_audio] call of a run comes from the mixing step, on the video
    that was opened and with the prepared music. *)
Lemma with_audio_call_origin (g : Globals) (w : MergeWorker) (v : video) (a : audio) :
  In (Job.with_audio_call v a) (Job.run L g w) ->
  VideoFileClip L (video_path w) = Ok v /\
  exists music,
    prepared_music w v music /\
    In (Job.with_audio_call v a)
       (fst (Job.attach_audio L w v (audio_of L v) music)).
Proof.
  unfold Job.run, Job.run_statement. intros H.
  apply in_try_except in H. destruct H as [H | [e [_ H]]].
  2:{ cbn in H. destruct H as [H | []]. discriminate. }
  apply in_bind in H. destruct H as [H | [_ [_ H]]].
  2:{ cbn in H. destruct H as [H | [H | []]]; discriminate. }
  unfold Job.work in H.
  apply in_bind in H. destruct H as [H | [_ [_ H]]].
  { destruct (engine_eqb _ _); destruct H. }
  apply in_bind in H. destruct H as [H | [_ [_ H]]].
  { cbn in H. destruct H as [H | []]. discriminate. }
  apply in_with in H. cbn [Job.call fst snd] in H.
  destruct H as [H | [r [Hr [H | [exc H]]]]].
  { destruct H as [H | []]. discriminate. }
  2:{ destruct H as [H | []]. discriminate. }
  unfold Job.video_block in H.
  apply in_bind in H. destruct H as [H | [_ [_ H]]].
  { cbn in H. destruct H as [H | []]. discriminate. }
  apply in_with in H. cbn [Job.call fst snd] in H.
  destruct H as [H | [music0 [Hm0 [H | [exc H]]]]].
  { destruct H as [H | []]. discriminate. }
  2:{ destruct H as [H | []]. discriminate. }
  unfold Job.music_block in H.
  apply in_bind in H. cbn [Job.lift fst snd] in H.
  destruct H as [[] | [music1 [Hm1 H]]].
  apply in_bind in H. destruct H as [H | [merged [_ H]]].
  2:{ cbn in H. destruct H as [H | [H | []]]; discriminate. }
  destruct (@attach_audio_event _ _ _ _ _ _ H) as [-> _].
  split; [exact Hr |].
  eexists. split; [| exact H].
  exists music0, music1. repeat split; assumption.
Qed.

(** The [with_audio] calls of a run that got as far as preparing its
    music. *)
Lemma attached_of_prepared_run (g : Globals) (w : MergeWorker) (v : video)
    (music0 music1 : audio) :
  ENGINE g <> disabled ->
  VideoFileClip L (video_path w) = Ok v ->
  AudioFileClip L (audio_path w) = Ok music0 ->
  _safe_vol L music0 (music_level w) = Ok music1 ->
  Trace.attached (Job.run L g w)
  = Trace.mixing L w v (Job.loop_music L (float_or (duration L v) 0%float) music1).
Proof.
  intros Hg Hv Hm0 Hm1.
  assert (He : engine_eqb (ENGINE g) disabled = false)
    by (destruct (ENGINE g); [reflexivity | reflexivity | now contradiction Hg]).
  unfold Trace.attached, Trace.mixing. open_run.
  rewrite He, Hv. cbv beta iota zeta.
  rewrite Hm0. cbv beta iota zeta.
  rewrite Hm1. cbv beta iota zeta.
  split_outcomes; reflexivity.
Qed.

Lemma attached_of_prepared_music (g : Globals) (w : MergeWorker) (v : video)
    (music : audio) :
  ENGINE g <> disabled ->
  VideoFileClip L (video_path w) = Ok v ->
  prepared_music w v music ->
  Trace.attached (Job.run L g w) = Trace.mixing L w v music.
Proof.
  intros Hg Hv [music0 [music1 [Hm0 [Hm1 ->]]]].
  now apply (attached_of_prepared_run g w Hg Hv Hm0 Hm1).
Qed.

Lemma in_attached (l : list event) (v : video) (a : audio) :
  In (Job.with_audio_call v a) l -> In (Job.with_audio_call v a) (Trace.attached l).
Proof.
  intros H. unfold Trace.attached. apply filter_In. now split.
Qed.


End JobStages.

Lemma classic_composite_adds : Contract.composite_adds Builds.classic.
Proof.
  intros a b out H. cbn in H. injection H as <-. intros t. reflexivity.
Qed.


Section JobInvariance.
Variables audio video : Type.

Abbreviation M := (Job.M audio video).

(** A [with] block only runs its body on what [enter] returned. *)
Lemma with_ext {R} (enter : M R) (exit_ : R -> option exn -> M bool)
    (body body' : R -> M unit) :
  (forall r, snd enter = Ok r -> body r = body' r) ->
  Job.with_ enter exit_ body = Job.with_ enter exit_ body'.
Proof.
  intros H. unfold Job.with_.
  destruct enter as [l [r | e]]; cbn [Job.bind]; [| reflexivity].
  now rewrite (H r eq_refl).
Qed.

Lemma bind_ext {A B} (m : M A) (k k' : A -> M B) :
  (forall a, snd m = Ok a -> k a = k' a) -> Job.bind m k = Job.bind m k'.
Proof.
  intros H. destruct m as [l [a | e]]; cbn [Job.bind]; [| reflexivity].
  now rewrite (H a eq_refl).
Qed.

Variable L : MoviePy audio video.

(** ** The ducking parameters when the video is silent *)

Lemma attach_audio_silent (w : MergeWorker) (flag : bool) (level : float)
    (v : video) (music : audio) :
  Job.attach_audio L (Job.with_ducking w flag level) v None music
  = Job.call (Job.with_audio_call v music) (with_audio L v music).
Proof.
  unfold Job.attach_audio. cbn [duck Job.with_ducking]. now destruct flag.
Qed.

Lemma work_silent (g : Globals) (w : MergeWorker) (f1 f2 : bool) (l1 l2 : float) :
  (forall v, VideoFileClip L (video_path w) = Ok v -> audio_of L v = None) ->
  Job.work L g (Job.with_ducking w f1 l1) = Job.work L g (Job.with_ducking w f2 l2).
Proof.
  intros Hsilent. unfold Job.work.
  apply bind_ext; intros _ _. apply bind_ext; intros _ _.
  cbn [video_path Job.with_ducking].
  apply with_ext. cbn [Job.call snd]. intros v Hv.
  unfold Job.video_block. rewrite (Hsilent v Hv).
  apply bind_ext; intros _ _.
  cbn [audio_path Job.with_ducking].
  apply with_ext. intros music0 _.
  unfold Job.music_block. cbn [music_level output_path Job.with_ducking].
  apply bind_ext; intros music1 _.
  now rewrite !attach_audio_silent.
Qed.


(** ** Looping *)

Lemma loop_music_without (d : float) (music : audio) :
  Job.loop_music (without_audio_loop L) d music = music.
Proof.
  unfold Job.loop_music. cbn [audio_loop without_audio_loop].
  now destruct (PrimFloat.ltb 0%float d).
Qed.

Lemma loop_music_failing (d : float) (music : audio) :
  (audio_loop L = None \/
   exists loop e, audio_loop L = Some loop /\ loop music d = Raise e) ->
  Job.loop_music L d music = music.
Proof.
  unfold Job.loop_music. intros [H | [loop [e [H He]]]]; rewrite H.
  - now destruct (PrimFloat.ltb 0%float d).
  - rewrite He. now destruct (PrimFloat.ltb 0%float d).
Qed.

Lemma loop_music_looping (d : float) (music looped : audio)
    (loop : audio -> float -> result audio) :
  PrimFloat.ltb 0%float d = true -> audio_loop L = Some loop ->
  loop music d = Ok looped ->
  Job.loop_music L d music = looped.
Proof.
  intros Hpos Hl Hok. unfold Job.loop_music. now rewrite Hpos, Hl, Hok.
Qed.

Lemma attach_audio_without (w : MergeWorker) (v : video) (o : option audio) (music : audio) :
  Job.attach_audio (without_audio_loop L) w v o music = Job.attach_audio L w v o music.
Proof. reflexivity. Qed.

(** The one call of the looping primitive a job makes. *)
Lemma work_without_loop (g : Globals) (w : MergeWorker) :
  (forall v music0 music1 loop,
      VideoFileClip L (video_path w) = Ok v ->
      AudioFileClip L (audio_path w) = Ok music0 ->
      _safe_vol L music0 (music_level w) = Ok music1 ->
      audio_loop L = Some loop ->
      PrimFloat.ltb 0%float (float_or (duration L v) 0%float) = true ->
      exists e, loop music1 (float_or (duration L v) 0%float) = Raise e) ->
  Job.work L g w = Job.work (without_audio_loop L) g w.
Proof.
  intros Hfail. unfold Job.work.
  apply bind_ext; intros _ _. apply bind_ext; intros _ _.
  cbn [VideoFileClip video_exit without_audio_loop].
  apply with_ext. intros v Hv. cbn [Job.call snd] in Hv.
  unfold Job.video_block.
  cbn [AudioFileClip audio_exit duration fps audio_of without_audio_loop].
  apply bind_ext; intros _ _.
  apply with_ext. intros music0 Hm0. cbn [Job.call snd] in Hm0.
  unfold Job.music_block.
  change (_safe_vol (without_audio_loop L)) with (_safe_vol L).
  apply bind_ext; intros music1 Hm1. cbn [Job.lift snd] in Hm1.
  rewrite loop_music_without, attach_audio_without.
  assert (Hsame : Job.loop_music L (float_or (duration L v) 0%float) music1 = music1).
  { unfold Job.loop_music.
    destruct (PrimFloat.ltb 0%float (float_or (duration L v) 0%float)) eqn:Hpos;
      [| reflexivity].
    destruct (audio_loop L) as [loop |] eqn:Hl; [| reflexivity].
    destruct (Hfail v music0 music1 loop Hv Hm0 Hm1 eq_refl Hpos) as [e He].
    now rewrite He. }
  now rewrite Hsame.
Qed.

(** C5.  A job loops its music, and cannot fail over it.  In a run that has
    opened a video of known positive duration and prepared its music, a
    looping primitive that returns makes the looped clip, which lasts at
    least as long as the video (what [audio_loop] promises), the music that
    is mixed and attached.  With no primitive, or one that raises, the music
    is mixed and attached at its natural length; and a job whose call of the
    primitive raises runs, event for event, as it does on the same build
    without the primitive. *)
Theorem looping_is_best_effort :
  Contract.loop_covers L ->
  forall (g : Globals) (w : MergeWorker),
    (forall v d music0 music1 loop looped,
        ENGINE g <> disabled ->
        VideoFileClip L (video_path w) = Ok v ->
        duration L v = Some d -> PrimFloat.ltb 0%float d = true ->
        AudioFileClip L (audio_path w) = Ok music0 ->
        _safe_vol L music0 (music_level w) = Ok music1 ->
        audio_loop L = Some loop -> loop music1 d = Ok looped ->
        (exists d', audio_duration L looped = Some d' /\ PrimFloat.leb d d' = true)
        /\ Trace.attached (Job.run L g w) = Trace.mixing L w v looped)
    /\
    (forall v music0 music1,
        ENGINE g <> disabled ->
        VideoFileClip L (video_path w) = Ok v ->
        AudioFileClip L (audio_path w) = Ok music0 ->
        _safe_vol L music0 (music_level w) = Ok music1 ->
        (audio_loop L = None \/
         exists loop e,
           audio_loop L = Some loop /\
           loop music1 (float_or (duration L v) 0%float) = Raise e) ->
        Trace.attached (Job.run L g w) = Trace.mixing L w v music1)
    /\
    ((forall v music0 music1 loop,
         VideoFileClip L (video_path w) = Ok v ->
         AudioFileClip L (audio_path w) = Ok music0 ->
         _safe_vol L music0 (music_level w) = Ok music1 ->
         audio_loop L = Some loop ->
         PrimFloat.ltb 0%float (float_or (duration L v) 0%float) = true ->
         exists e, loop music1 (float_or (duration L v) 0%float) = Raise e) ->
     Job.run L g w = Job.run (without_audio_loop L) g w).
Proof.
  intros Hcovers g w. split; [| split].
  - intros v d music0 music1 loop looped Hg Hv Hd Hpos Hm0 Hm1 Hl Hok. split.
    + exact (Hcovers loop music1 d looped Hl Hpos Hok).
    + rewrite (@attached_of_prepared_run _ _ L g w v music0 music1 Hg Hv Hm0 Hm1).
      rewrite Hd, (FloatFacts.float_or_positive _ Hpos).
      now rewrite (loop_music_looping music1 Hpos Hl Hok).
  - intros v music0 music1 Hg Hv Hm0 Hm1 Hnone.
    rewrite (@attached_of_prepared_run _ _ L g w v music0 music1 Hg Hv Hm0 Hm1).
    now rewrite (loop_music_failing Hnone).
  - intros Hfail. unfold Job.run, Job.run_statement.
    now rewrite (work_without_loop g w Hfail).
Qed.

End JobInvariance.


Lemma classic_loop_covers : Contract.loop_covers Builds.classic.
Proof.
  intros loop clip d out Hl Hpos Hok. cbn in Hl. injection Hl as <-.
  injection Hok as <-. exists d. split; [reflexivity |].
  now apply FloatFacts.leb_refl_of_positive.
Qed.

Lemma broken_loop_covers : Contract.loop_covers Builds.broken_loop.
Proof.
  intros loop clip d out Hl Hpos Hok. cbn in Hl. injection Hl as <-.
  discriminate.
Qed.

Lemma looping_is_best_effort_witness :
  ((exists d', audio_duration Builds.classic Builds.looped_song = Some d'
               /\ PrimFloat.leb 10%float d' = true)
   /\ Trace.attached (Job.run Builds.classic Builds.ready Builds.request)
      = Trace.mixing Builds.classic Builds.request Builds.movie Builds.looped_song)
  /\ Trace.attached (Job.run Builds.broken_loop Builds.ready Builds.request)
     = Trace.mixing Builds.broken_loop Builds.request Builds.movie
         (Builds.amplify 0.5%float Builds.song)
  /\ Job.run Builds.broken_loop Builds.ready Builds.request
     = Job.run (without_audio_loop Builds.broken_loop) Builds.ready Builds.request.
Proof.
  split; [| split].
  - apply (proj1 (@looping_is_best_effort _ _ Builds.classic classic_loop_covers
                    Builds.ready Builds.request)
             Builds.movie 10%float Builds.song (Builds.amplify 0.5%float Builds.song)
             (fun c d => Ok {| Builds.samples := Builds.samples c; Builds.lasts := Some d |})
             Builds.looped_song);
      try reflexivity.
    discriminate.
  - apply (proj1 (proj2 (@looping_is_best_effort _ _ Builds.broken_loop broken_loop_covers
                           Builds.ready Builds.request))
             Builds.movie Builds.song (Builds.amplify 0.5%float Builds.song));
      try reflexivity.
    + discriminate.
    + right. do 2 eexists. split; reflexivity.
  - apply (proj2 (proj2 (@looping_is_best_effort _ _ Builds.broken_loop broken_loop_covers
                           Builds.ready Builds.request))).
    intros v music0 music1 loop _ _ _ Hl _. cbn in Hl. injection Hl as <-.
    eexists. reflexivity.
Defined.

(* ------------------------------------------------------------------ *)
(** * Interactive Shell *)

Lemma with_mp4_extension_names_mp4 (answer : string) :
  endswith (lower (Shell.with_mp4_extension answer)) ".mp4" = true.
Proof.
  unfold Shell.with_mp4_extension.
  destruct (endswith (lower answer) ".mp4") eqn:H; cbn [negb].
  - exact H.
  - apply StringFacts.lower_endswith_mp4.
Qed.

(** C9.  The worker that [merge_and_preview] starts for the file name the
    user chose is given an output path that ends in ".mp4" (letter case
    aside, as the program tests it): the chosen name itself when it already
    ends so, and the chosen name followed by ".mp4" when it does not. *)
Theorem started_worker_writes_an_mp4 :
  forall (g : Globals) (w : Shell.MainWindow) (answer : string) (worker : MergeWorker),
    In worker (Shell.in_flight (Shell.merge_and_preview g w answer)) ->
    ~ In worker (Shell.in_flight w) ->
    endswith (lower (output_path worker)) ".mp4" = true
    /\ output_path worker
       = (if endswith (lower answer) ".mp4" then answer else (answer ++ ".mp4")%string).
Proof.
  intros g w answer worker Hin Hnew.
  unfold Shell.merge_and_preview in Hin.
  destruct (Selection.video_path (Shell.state w)) as [video |];
    [| now contradiction Hnew].
  destruct (Selection.audio_path (Shell.state w)) as [music |];
    [| now contradiction Hnew].
  destruct (negb (truthy video && truthy music)); [now contradiction Hnew |].
  destruct (engine_eqb (ENGINE g) disabled); [now contradiction Hnew |].
  destruct (negb (truthy answer)); [now contradiction Hnew |].
  cbn [Shell.in_flight Shell.set_in_flight Shell.set_progress Shell.set_merge_btn
         Shell.set_state] in Hin.
  apply in_app_or in Hin. destruct Hin as [Hin | [<- | []]];
    [now contradiction Hnew |].
  cbn [output_path]. split.
  - apply with_mp4_extension_names_mp4.
  - unfold Shell.with_mp4_extension.
    now destruct (endswith (lower answer) ".mp4").
Qed.

Lemma started_worker_writes_an_mp4_witness :
  endswith (lower (output_path Builds.started)) ".mp4" = true
  /\ output_path Builds.started = "holiday.mp4".
Proof.
  apply (@started_worker_writes_an_mp4 Builds.ready Builds.chosen "holiday" Builds.started).
  - cbv. left. reflexivity.
  - intros [].
Defined.

(** C8 fails on the program: choosing a file runs [enable_merge_if_ready],
    which enables the merge button without regard to a job in flight.  After
    the first click the button is disabled and one job is in flight; the user
    then selects another video, the button is enabled again, and a second click
    starts a second job while the first has not delivered its outcome. *)
Theorem selecting_a_file_reenables_merge_during_a_job :
  let g := Builds.ready in
  let first :=
    Shell.session g
      [Shell.select_video "clip.mp4"; Shell.select_audio "song.mp3";
       Shell.click_merge "out.mp4"] in
  let again := Shell.step g first (Shell.select_video "other.mp4") in
  let second := Shell.step g again (Shell.click_merge "out2.mp4") in
  (Shell.merge_btn first = false /\ List.length (Shell.in_flight first) = 1%nat)
  /\ (Shell.merge_btn again = true /\ List.length (Shell.in_flight again) = 1%nat)
  /\ List.map output_path (Shell.in_flight second) = ["out.mp4"; "out2.mp4"].
Proof.
  cbv zeta. repeat split; vm_compute; reflexivity.
Qed.

(** ** The merge button over a whole session *)

Section Sessions.
Variable g : Globals.

Abbreviation serialized := Shell.serialized.

Lemma enable_keeps_in_flight (w : Shell.MainWindow) :
  Shell.in_flight (Shell.enable_merge_if_ready g w) = Shell.in_flight w.
Proof. reflexivity. Qed.

Lemma serialized_when_idle (w : Shell.MainWindow) :
  Shell.in_flight w = [] -> serialized w.
Proof.
  intros H. unfold Shell.serialized. rewrite H. split; [cbn; lia | reflexivity].
Qed.

Lemma merge_and_preview_serialized (w : Shell.MainWindow) (answer : string) :
  Shell.in_flight w = [] -> serialized (Shell.merge_and_preview g w answer).
Proof.
  intros Hidle. unfold Shell.merge_and_preview.
  destruct (Selection.video_path (Shell.state w)) as [video |];
    [| now apply serialized_when_idle].
  destruct (Selection.audio_path (Shell.state w)) as [music |];
    [| now apply serialized_when_idle].
  destruct (negb (truthy video && truthy music)); [now apply serialized_when_idle |].
  destruct (engine_eqb (ENGINE g) disabled); [now apply serialized_when_idle |].
  destruct (negb (truthy answer)); [now apply serialized_when_idle |].
  unfold Shell.serialized.
  cbn [Shell.in_flight Shell.merge_btn Shell.set_in_flight Shell.set_progress
         Shell.set_merge_btn Shell.set_state].
  rewrite Hidle. split; [cbn; lia | discriminate].
Qed.

Lemma remove_last_in_flight {A} (k : nat) (l : list A) (x : A) :
  (List.length l <= 1)%nat -> nth_error l k = Some x -> Shell.remove_nth k l = [].
Proof.
  destruct l as [| y [| z l]]; cbn [List.length]; intros Hlen Hk.
  - now destruct k.
  - destruct k as [| k]; [reflexivity |]. now destruct k.
  - lia.
Qed.

Lemma step_serialized (w : Shell.MainWindow) (a : Shell.action) :
  serialized w -> Shell.calm w a -> serialized (Shell.step g w a).
Proof.
  intros [Hlen Hbtn] Hcalm.
  destruct a as [answer | answer | music original keep | answer | n | k | k err];
    cbn [Shell.step Shell.calm] in *.
  - unfold Shell.pick_video. destruct (truthy answer) eqn:Ht; [| now split].
    destruct Hcalm as [Hidle | Hno]; [| discriminate].
    apply serialized_when_idle. exact Hidle.
  - unfold Shell.pick_audio. destruct (truthy answer) eqn:Ht; [| now split].
    destruct Hcalm as [Hidle | Hno]; [| discriminate].
    apply serialized_when_idle. exact Hidle.
  - now split.
  - destruct (Shell.merge_btn w) eqn:Hb; [| split; [exact Hlen | now rewrite Hb]].
    apply merge_and_preview_serialized. now apply Hbtn.
  - now split.
  - destruct (nth_error (Shell.in_flight w) k) as [worker |] eqn:Hk; [| now split].
    apply serialized_when_idle. cbn. exact (remove_last_in_flight k _ Hlen Hk).
  - destruct (nth_error (Shell.in_flight w) k) as [worker |] eqn:Hk; [| now split].
    apply serialized_when_idle. cbn. exact (remove_last_in_flight k _ Hlen Hk).
Qed.

Lemma session_from_serialized (actions : list Shell.action) :
  forall w, serialized w -> Shell.calm_session g w actions ->
            serialized (Shell.session_from g w actions).
Proof.
  induction actions as [| a rest IH]; intros w Hw Hcalm.
  - exact Hw.
  - destruct Hcalm as [Ha Hrest]. cbn [Shell.session_from fold_left].
    apply IH; [now apply step_serialized | exact Hrest].
Qed.

(** X2.  As long as no file is chosen while a job is in flight, at most one
    job is in flight at any time and the merge button is disabled while it
    is. *)
Theorem one_job_at_a_time_without_reselection :
  forall actions : list Shell.action,
    Shell.calm_session g (Shell.init g) actions ->
    (List.length (Shell.in_flight (Shell.session g actions)) <= 1)%nat
    /\ (Shell.merge_btn (Shell.session g actions) = true ->
        Shell.in_flight (Shell.session g actions) = []).
Proof.
  intros actions Hcalm. apply session_from_serialized; [| exact Hcalm].
  apply serialized_when_idle. unfold Shell.init. now destruct (ENGINE g).
Qed.

Lemma step_without_engine (w : Shell.MainWindow) (a : Shell.action) :
  ENGINE g = disabled ->
  Shell.merge_btn w = false /\ Shell.in_flight w = [] ->
  Shell.merge_btn (Shell.step g w a) = false /\ Shell.in_flight (Shell.step g w a) = [].
Proof.
  intros Hg [Hb Hf].
  destruct a as [answer | answer | music original keep | answer | n | k | k err];
    cbn [Shell.step].
  - unfold Shell.pick_video, Shell.enable_merge_if_ready.
    destruct (truthy answer); [| now split].
    cbn. rewrite Hg, Hf. cbn. now rewrite !andb_false_r.
  - unfold Shell.pick_audio, Shell.enable_merge_if_ready.
    destruct (truthy answer); [| now split].
    cbn. rewrite Hg, Hf. cbn. now rewrite !andb_false_r.
  - now split.
  - rewrite Hb. now split.
  - now split.
  - rewrite Hf. destruct k; now split.
  - rewrite Hf. destruct k; now split.
Qed.

(** X1.  Without an engine the merge button is never enabled and no job is
    ever started, whatever the user does. *)
Theorem merge_stays_disabled_without_engine :
  ENGINE g = disabled ->
  forall actions : list Shell.action,
    Shell.merge_btn (Shell.session g actions) = false
    /\ Shell.in_flight (Shell.session g actions) = [].
Proof.
  intros Hg actions. unfold Shell.session, Shell.session_from.
  assert (Hinit : Shell.merge_btn (Shell.init g) = false
                  /\ Shell.in_flight (Shell.init g) = []).
  { unfold Shell.init. rewrite Hg. now split. }
  revert Hinit. generalize (Shell.init g).
  induction actions as [| a rest IH]; intros w Hw; cbn [fold_left].
  - exact Hw.
  - apply IH. now apply step_without_engine.
Qed.

End Sessions.

Lemma one_job_at_a_time_without_reselection_witness :
  (List.length (Shell.in_flight (Shell.session Builds.ready Builds.two_merges)) <= 1)%nat
  /\ (Shell.merge_btn (Shell.session Builds.ready Builds.two_merges) = true ->
      Shell.in_flight (Shell.session Builds.ready Builds.two_merges) = []).
Proof.
  apply (one_job_at_a_time_without_reselection Builds.ready Builds.two_merges).
  cbv. repeat split; auto.
Defined.

Lemma merge_stays_disabled_without_engine_witness :
  Shell.merge_btn (Shell.session (module_load Builds.empty_host) Builds.two_merges) = false
  /\ Shell.in_flight (Shell.session (module_load Builds.empty_host) Builds.two_merges) = [].
Proof.
  apply (@merge_stays_disabled_without_engine (module_load Builds.empty_host)).
  reflexivity.
Defined.

(** ** What is written is what was attached *)

Section Written.
Variables audio video : Type.
Variable L : MoviePy audio video.

Abbreviation event := (Job.event audio video).
Abbreviation M := (Job.M audio video).

Lemma in_bind_l {A B} (m : M A) (k : A -> M B) (ev : event) :
  In ev (fst m) -> In ev (fst (Job.bind m k)).
Proof.
  destruct m as [l [a | e]]; cbn [Job.bind fst]; [| tauto].
  destruct (k a) as [l' r]. cbn [fst]. intros H. apply in_or_app. now left.
Qed.

Lemma in_bind_r {A B} (m : M A) (k : A -> M B) (a : A) (ev : event) :
  snd m = Ok a -> In ev (fst (k a)) -> In ev (fst (Job.bind m k)).
Proof.
  destruct m as [l r]. cbn [snd]. intros ->. cbn [Job.bind].
  destruct (k a) as [l' r']. cbn [fst]. intros H. apply in_or_app. now right.
Qed.

Lemma in_with_body {R} (enter : M R) (exit_ : R -> option exn -> M bool)
    (body : R -> M unit) (r : R) (ev : event) :
  snd enter = Ok r -> In ev (fst (body r)) ->
  In ev (fst (Job.with_ enter exit_ body)).
Proof.
  intros Hr H. unfold Job.with_. eapply in_bind_r; [exact Hr |].
  destruct (body r) as [l [u | e]]; cbn [fst] in H; now apply in_bind_l.
Qed.

Lemma in_try_l {A} (m : M A) (h : exn -> M A) (ev : event) :
  In ev (fst m) -> In ev (fst (Job.try_except m h)).
Proof.
  destruct m as [l [a | e]]; cbn [Job.try_except fst]; [tauto |].
  destruct (h e) as [l' r]. cbn [fst]. intros H. apply in_or_app. now left.
Qed.

Lemma attach_audio_result (w : MergeWorker) (v : video) (o : option audio)
    (music : audio) (merged : video) :
  snd (Job.attach_audio L w v o music) = Ok merged ->
  exists a, In (Job.with_audio_call v a) (fst (Job.attach_audio L w v o music))
            /\ with_audio L v a = Ok merged.
Proof.
  unfold Job.attach_audio.
  assert (Hplain : snd (Job.call (Job.with_audio_call v music) (with_audio L v music))
                   = Ok merged ->
                   exists a, In (Job.with_audio_call v a)
                               (fst (Job.call (Job.with_audio_call v music)
                                              (with_audio L v music)))
                             /\ with_audio L v a = Ok merged).
  { cbn. intros H. exists music. split; [now left | exact H]. }
  destruct (duck w); [destruct o as [original |] |]; try exact Hplain.
  unfold Job.lift, Job.call, Job.bind.
  destruct (_safe_vol L original (original_level w)) as [bed | e]; [| discriminate].
  destruct (CompositeAudioClip L [bed; music]) as [mixed | e]; [| discriminate].
  cbn. intros H. exists mixed. split; [now left | exact H].
Qed.

(** X3.  Every [write_videofile] call of a run writes, to the request's output
    path, with the fixed codecs and the frame rate of the source (25 when it
    reports none), the clip that [with_audio] returned earlier in that run. *)
Theorem written_clip_is_the_attached_one :
  forall (g : Globals) (w : MergeWorker) (clip : video) (path : string) (o : write_options),
    In (Job.write_videofile_call clip path o) (Job.run L g w) ->
    path = output_path w /\
    exists v a,
      VideoFileClip L (video_path w) = Ok v /\
      o = Job.write_args (float_or (fps L v) 25%float) /\
      In (Job.with_audio_call v a) (Job.run L g w) /\
      with_audio L v a = Ok clip.
Proof.
  intros g w clip path o. unfold Job.run, Job.run_statement. intros H.
  apply in_try_except in H. destruct H as [H | [e [_ H]]].
  2:{ cbn in H. destruct H as [H | []]. discriminate. }
  apply in_bind in H. destruct H as [H | [_ [_ H]]].
  2:{ cbn in H. destruct H as [H | [H | []]]; discriminate. }
  unfold Job.work in H.
  apply in_bind in H. destruct H as [H | [u0 [Hengine H]]].
  { destruct (engine_eqb _ _); destruct H. }
  apply in_bind in H. destruct H as [H | [u1 [Hp5 H]]].
  { cbn in H. destruct H as [H | []]. discriminate. }
  apply in_with in H. cbn [Job.call fst snd] in H.
  destruct H as [H | [v [Hv [H | [exc H]]]]].
  { destruct H as [H | []]. discriminate. }
  2:{ destruct H as [H | []]. discriminate. }
  unfold Job.video_block in H.
  apply in_bind in H. destruct H as [H | [u2 [Hp20 H]]].
  { cbn in H. destruct H as [H | []]. discriminate. }
  apply in_with in H. cbn [Job.call fst snd] in H.
  destruct H as [H | [music0 [Hm0 [H | [exc H]]]]].
  { destruct H as [H | []]. discriminate. }
  2:{ destruct H as [H | []]. discriminate. }
  unfold Job.music_block in H.
  apply in_bind in H. cbn [Job.lift fst snd] in H.
  destruct H as [[] | [music1 [Hm1 H]]].
  apply in_bind in H. destruct H as [H | [merged [Hmerged H]]].
  { exfalso. revert H. unfold Job.attach_audio.
    destruct (duck w); [destruct (audio_of L v) |];
      unfold Job.lift, Job.call, Job.bind;
      repeat match goal with
             | |- context [match ?r with Ok _ => _ | Raise _ => _ end] => destruct r
             end;
      cbn; intros H; repeat destruct H as [H | H]; try discriminate; exact H. }
  apply in_bind in H. destruct H as [H | [u3 [_ H]]].
  { cbn in H. destruct H as [H | []]. discriminate. }
  cbn in H. destruct H as [H | []]. injection H as Hclip Hpath Ho.
  subst clip path o.
  split; [reflexivity |].
  destruct (@attach_audio_result _ _ _ _ _ Hmerged) as [a [Hin Ha]].
  exists v, a. repeat split; try assumption.
  apply in_try_l, in_bind_l. unfold Job.work.
  eapply in_bind_r; [exact Hengine |].
  eapply in_bind_r; [exact Hp5 |].
  eapply in_with_body; [exact Hv |].
  unfold Job.video_block.
  eapply in_bind_r; [exact Hp20 |].
  eapply in_with_body; [exact Hm0 |].
  unfold Job.music_block.
  eapply in_bind_r; [exact Hm1 |].
  now apply in_bind_l.
Qed.

End Written.

Lemma written_clip_is_the_attached_one_witness :
  exists clip,
    In (Job.write_videofile_call clip "out.mp4" (Job.write_args 30%float))
       (Job.run Builds.classic Builds.ready Builds.request)
    /\ exists v a,
         In (Job.with_audio_call v a) (Job.run Builds.classic Builds.ready Builds.request)
         /\ with_audio Builds.classic v a = Ok clip.
Proof.
  eexists. split.
  - cbv. do 6 right. left. reflexivity.
  - match goal with
    | |- context [Ok ?c] =>
        destruct (@written_clip_is_the_attached_one _ _ Builds.classic Builds.ready
                    Builds.request c "out.mp4" (Job.write_args 30%float))
          as [_ [v [a [_ [_ [Hin Ha]]]]]]
    end.
    + cbv. do 6 right. left. reflexivity.
    + exists v, a. now split.
Defined.

(* ------------------------------------------------------------------ *)
(** * More about the Merge Job: every way a run can go *)

Section RunShapes.
Variables audio video : Type.
Variable L : MoviePy audio video.

(** X4.  A run closes exactly what it opened, once, on every path: the video
    clip if [VideoFileClip] returned one, the music clip if [AudioFileClip]
    returned one, and nothing when the engine check failed or the
    constructor raised. *)
Theorem run_closes_what_it_opened :
  forall (g : Globals) (w : MergeWorker),
    filter (@Trace.closes_video audio video) (Job.run L g w)
    = (if engine_eqb (ENGINE g) disabled then []
       else match VideoFileClip L (video_path w) with
            | Ok v => [Job.video_exit_call v]
            | Raise _ => []
            end)
    /\
    filter (@Trace.closes_audio audio video) (Job.run L g w)
    = (if engine_eqb (ENGINE g) disabled then []
       else match VideoFileClip L (video_path w) with
            | Ok _ =>
                match AudioFileClip L (audio_path w) with
                | Ok a => [Job.audio_exit_call a]
                | Raise _ => []
                end
            | Raise _ => []
            end).
Proof.
  intros g w. split; run_cases; reflexivity.
Qed.

(** X5.  The percentages a run reports are, in order, some of 5, 20, 55,
    100, and 100 is reported exactly when the run ends in [finished]. *)
Theorem milestones_go_up_and_end_with_finished :
  forall (g : Globals) (w : MergeWorker),
    Trace.subsequence (Trace.progress_values (Job.run L g w)) [5; 20; 55; 100]%Z = true
    /\ (In (Job.progress_emit 100) (Job.run L g w)
        <-> In (Job.finished_emit (output_path w)) (Job.run L g w)).
Proof.
  intros g w. split.
  - run_cases; reflexivity.
  - run_cases; cbn [In fst app];
      (split; intros H;
       repeat (destruct H as [H | H]; try discriminate H);
       try contradiction; tauto).
Qed.

(** X6.  Once a clip is closed the run does not touch it again: after the
    music clip's [__exit__] only the video's [__exit__] and signals follow,
    and after the video's [__exit__] only signals. *)
Theorem nothing_follows_the_closing_of_a_clip :
  forall (g : Globals) (w : MergeWorker),
    forallb (@Trace.signal audio video)
      (Trace.after_first (@Trace.closes_video audio video) (Job.run L g w)) = true
    /\
    forallb (fun ev => Trace.signal ev || Trace.closes_video ev)
      (Trace.after_first (@Trace.closes_audio audio video) (Job.run L g w)) = true.
Proof.
  intros g w. split; run_cases; reflexivity.
Qed.

(** X7.  On a build whose [__exit__] methods never swallow an exception,
    the [finished] signal means the file was written: the run called
    [write_videofile] with the request's output path and the call returned. *)
Theorem finished_means_written :
  Assumptions.exits_do_not_swallow L ->
  forall (g : Globals) (w : MergeWorker) (p : string),
    In (Job.finished_emit p) (Job.run L g w) ->
    p = output_path w /\
    exists clip v_fps,
      In (Job.write_videofile_call clip (output_path w) (Job.write_args v_fps))
         (Job.run L g w)
      /\ write_videofile L clip (output_path w) (Job.write_args v_fps) = Ok tt.
Proof.
  intros [Haudio Hvideo] g w p.
  run_cases; cbn [In fst app]; intros H;
    repeat (destruct H as [H | H]; try discriminate H);
    try contradiction;
    try (exfalso;
         match goal with
         | E : audio_exit L _ _ = Ok true |- _ => apply Haudio in E; discriminate E
         | E : video_exit L _ _ = Ok true |- _ => apply Hvideo in E; discriminate E
         end);
    injection H as <-;
    (split; [reflexivity |]);
    match goal with
    | E : write_videofile L ?c _ (Job.write_args ?f) = Ok ?u |- _ =>
        exists c, f; destruct u; split; [cbn [In]; tauto | exact E]
    end.
Qed.

End RunShapes.

Lemma classic_exits_do_not_swallow : Assumptions.exits_do_not_swallow Builds.classic.
Proof.
  split; intros x exc b H; cbn in H; now injection H as <-.
Qed.

Lemma finished_means_written_witness :
  "out.mp4" = output_path Builds.request /\
  exists clip v_fps,
    In (Job.write_videofile_call clip (output_path Builds.request) (Job.write_args v_fps))
       (Job.run Builds.classic Builds.ready Builds.request)
    /\ write_videofile Builds.classic clip (output_path Builds.request)
         (Job.write_args v_fps) = Ok tt.
Proof.
  apply (@finished_means_written _ _ Builds.classic classic_exits_do_not_swallow
           Builds.ready Builds.request "out.mp4").
  cbv. do 10 right. left. reflexivity.
Defined.

Section LevelsRead.
Variables audio video : Type.
Variable L : MoviePy audio video.

Lemma attach_audio_ducking_off (w : MergeWorker) (level : float) (v : video)
    (o : option audio) (music : audio) :
  Job.attach_audio L (Job.with_ducking w false level) v o music
  = Job.call (Job.with_audio_call v music) (with_audio L v music).
Proof. reflexivity. Qed.

(** X8.  With the ducking flag cleared the original level is never read: two
    requests that differ only in it run event for event alike, whatever the
    video. *)
Theorem original_level_is_ignored_when_ducking_is_off :
  forall (g : Globals) (w : MergeWorker) (l1 l2 : float),
    Job.run L g (Job.with_ducking w false l1) = Job.run L g (Job.with_ducking w false l2).
Proof.
  intros g w l1 l2. unfold Job.run, Job.run_statement.
  assert (H : Job.work L g (Job.with_ducking w false l1)
              = Job.work L g (Job.with_ducking w false l2)).
  { unfold Job.work.
    apply bind_ext; intros _ _. apply bind_ext; intros _ _.
    cbn [video_path Job.with_ducking].
    apply with_ext. intros v _.
    unfold Job.video_block.
    apply bind_ext; intros _ _.
    cbn [audio_path Job.with_ducking].
    apply with_ext. intros music0 _.
    unfold Job.music_block. cbn [music_level output_path Job.with_ducking].
    apply bind_ext; intros music1 _.
    now rewrite !attach_audio_ducking_off. }
  now rewrite H.
Qed.

(** ** The adapter's two ways out *)

Lemma safe_vol_cases (clip : audio) (level : float) :
  (exists c, _safe_vol L clip level = Ok c /\
             (method1 L clip level = Some c
              \/ method2 L clip level = Some c
              \/ method3 L clip level = Some c))
  \/ (method1 L clip level = None /\ method2 L clip level = None
      /\ method3 L clip level = None
      /\ _safe_vol L clip level
         = if near_one level then Ok clip else Raise volume_unavailable).
Proof.
  unfold _safe_vol.
  destruct (method1 L clip level) as [c |] eqn:H1; [left; exists c; tauto |].
  destruct (method2 L clip level) as [c |] eqn:H2; [left; exists c; tauto |].
  destruct (method3 L clip level) as [c |] eqn:H3; [left; exists c; tauto |].
  right. tauto.
Qed.

(** X9.  The adapter raises nothing but its own [RuntimeError], and only for
    a level that is not within 1e-9 of 1.0 and a clip on which none of the
    three mechanisms returned: whatever a mechanism raises is swallowed. *)
Theorem safe_vol_raises_only_unavailable :
  forall (clip : audio) (level : float) (e : exn),
    _safe_vol L clip level = Raise e ->
    e = volume_unavailable
    /\ near_one level = false
    /\ forall m, In m (mechanisms L) -> forall c, m clip level <> Some (Ok c).
Proof.
  intros clip level e H.
  destruct (safe_vol_cases clip level) as [[c [Hc _]] | [H1 [H2 [H3 Hv]]]].
  { rewrite Hc in H. discriminate. }
  rewrite Hv in H. destruct (near_one level); [discriminate |].
  injection H as <-. split; [reflexivity |]. split; [reflexivity |].
  rewrite method1_mechanism in H1. rewrite method2_mechanism in H2.
  rewrite method3_mechanism in H3.
  intros m [<- | [<- | [<- | []]]] c Hm.
  - now rewrite Hm in H1.
  - now rewrite Hm in H2.
  - now rewrite Hm in H3.
Qed.

(** X10.  On a build whose mechanisms do what MoviePy documents, a clip the
    adapter returns plays every sample of the input multiplied by [level];
    the one exception is the fallback for a level within 1e-9 of 1.0, which
    returns the input itself. *)
Theorem safe_vol_scales_every_sample :
  Contract.volumex_method_scales L ->
  Contract.volumex_effect_scales L ->
  Contract.fl_transforms L ->
  forall (clip out : audio) (level : float),
    _safe_vol L clip level = Ok out ->
    Contract.scaled L level clip out
    \/ (out = clip /\ near_one level = true
        /\ forall m, In m (mechanisms L) -> forall c, m clip level <> Some (Ok c)).
Proof.
  intros Hnative Heffect Hfl clip out level H.
  destruct (safe_vol_cases clip level) as [[c [Hc Hvia]] | [H1 [H2 [H3 Hv]]]].
  - left. rewrite Hc in H. injection H as <-.
    destruct Hvia as [Hm | [Hm | Hm]].
    + unfold method1, try_pass, returning, invoke, hasattr, rbind in Hm.
      destruct (clip_volumex L clip) as [| | m] eqn:Ha; try discriminate.
      destruct (m level) as [c' | e] eqn:Hr; try discriminate.
      injection Hm as <-. exact (Hnative clip m level c' Ha Hr).
    + unfold method2, try_pass, returning, invoke, rbind in Hm.
      destruct (volumex L) as [effect |] eqn:Hx; try discriminate.
      destruct (clip_fx L clip) as [| | m] eqn:Ha; try discriminate.
      destruct (m effect level) as [c' | e] eqn:Hr; try discriminate.
      injection Hm as <-. exact (Heffect clip m effect level c' Hx Ha Hr).
    + unfold method3, try_pass, returning, invoke, hasattr, callable, rbind in Hm.
      destruct (clip_fl L clip) as [| | m] eqn:Ha; try discriminate.
      cbn [andb] in Hm.
      destruct (m (scale_frames level)) as [c' | e] eqn:Hr; try discriminate.
      injection Hm as <-. intros t.
      now rewrite (Hfl clip m _ c' Ha Hr t).
  - right. rewrite Hv in H. destruct (near_one level); [| discriminate].
    injection H as <-. split; [reflexivity |]. split; [reflexivity |].
    rewrite method1_mechanism in H1. rewrite method2_mechanism in H2.
    rewrite method3_mechanism in H3.
    intros m [<- | [<- | [<- | []]]] c Hm.
    + now rewrite Hm in H1.
    + now rewrite Hm in H2.
    + now rewrite Hm in H3.
Qed.

End LevelsRead.

Lemma safe_vol_raises_only_unavailable_witness :
  Exception "RuntimeError" "Volume effect not available in this MoviePy build."
  = volume_unavailable
  /\ near_one 0.5%float = false
  /\ forall m, In m (mechanisms Builds.bare) ->
       forall c, m Builds.song 0.5%float <> Some (Ok c).
Proof.
  apply (@safe_vol_raises_only_unavailable _ _ Builds.bare Builds.song 0.5%float).
  reflexivity.
Defined.

Lemma safe_vol_scales_every_sample_witness :
  Contract.scaled Builds.classic 0.5%float Builds.song
    (Builds.amplify 0.5%float Builds.song)
  \/ (Builds.amplify 0.5%float Builds.song = Builds.song /\ near_one 0.5%float = true
      /\ forall m, In m (mechanisms Builds.classic) ->
           forall c, m Builds.song 0.5%float <> Some (Ok c)).
Proof.
  apply (@safe_vol_scales_every_sample _ _ Builds.classic
           classic_volumex_method_scales classic_volumex_effect_scales
           classic_fl_transforms Builds.song
           (Builds.amplify 0.5%float Builds.song) 0.5%float).
  reflexivity.
Defined.

(* ------------------------------------------------------------------ *)
(** * The levels the sliders can produce *)

Lemma slider_position (n : Z) :
  (0 <= n <= 100)%Z -> In n (List.map Z.of_nat (seq 0 101)).
Proof.
  intros H. apply in_map_iff. exists (Z.to_nat n). split; [lia |].
  apply in_seq. lia.
Qed.

Lemma on_every_slider_position (P : Z -> bool) :
  forallb P (List.map Z.of_nat (seq 0 101)) = true ->
  forall n, (0 <= n <= 100)%Z -> P n = true.
Proof.
  intros H n Hn. rewrite forallb_forall in H. apply H. now apply slider_position.
Qed.

(** Only the position 100 gives a level within 1e-9 of 1.0. *)
Lemma near_one_percent (n : Z) :
  (0 <= n <= 100)%Z -> near_one (Shell.percent n) = (n =? 100)%Z.
Proof.
  intros Hn. apply eqb_prop.
  apply (on_every_slider_position
           (fun n => Bool.eqb (near_one (Shell.percent n)) (n =? 100)%Z)).
  - vm_compute. reflexivity.
  - exact Hn.
Qed.

Lemma percent_in_unit_interval (n : Z) :
  (0 <= n <= 100)%Z -> Request.unit_interval (Shell.percent n).
Proof.
  intros Hn. unfold Request.unit_interval. apply andb_prop.
  apply (on_every_slider_position
           (fun n => PrimFloat.leb 0%float (Shell.percent n)
                     && PrimFloat.leb (Shell.percent n) 1%float)).
  - vm_compute. reflexivity.
  - exact Hn.
Qed.

Section NoMechanism.
Variables audio video : Type.
Variable L : MoviePy audio video.

(** X11.  On a build without any scaling mechanism, the adapter accepts the
    level of exactly one slider position: at 100 it returns the clip
    unchanged, at every other position from 0 to 99 it raises. *)
Theorem without_mechanisms_only_full_level_passes :
  Assumptions.no_mechanism L ->
  forall (clip : audio) (n : Z),
    (0 <= n <= 100)%Z ->
    _safe_vol L clip (Shell.percent n)
    = if (n =? 100)%Z then Ok clip else Raise volume_unavailable.
Proof.
  intros [Hnative [Heffect Hfl]] clip n Hn.
  unfold _safe_vol, method1, method2, method3.
  rewrite Hnative, Heffect, Hfl. cbn [hasattr callable andb try_pass].
  now rewrite (near_one_percent Hn).
Qed.

End NoMechanism.

Lemma bare_has_no_mechanism : Assumptions.no_mechanism Builds.bare.
Proof. repeat split. Qed.

Lemma without_mechanisms_only_full_level_passes_witness :
  _safe_vol Builds.bare Builds.song (Shell.percent 20)
  = if (20 =? 100)%Z then Ok Builds.song else Raise volume_unavailable.
Proof.
  apply (@without_mechanisms_only_full_level_passes _ _ Builds.bare
           bare_has_no_mechanism Builds.song 20%Z).
  lia.
Defined.

(* ------------------------------------------------------------------ *)
(** * More about the Media Engine Locator *)

(** A degraded load leaves an inherited IMAGEIO_FFMPEG_EXE in place. *)
Example degraded_load_keeps_the_inherited_variable :
  module_load Builds.preset_host
  = {| FFMPEG_ERROR := Some no_ffmpeg_message; ENGINE := disabled;
       IMAGEIO_FFMPEG_EXE := Some "/opt/old/ffmpeg" |}.
Proof. reflexivity. Qed.

(** X12.  After the module is loaded its globals agree: [ENGINE] is
    "disabled" exactly when [FFMPEG_ERROR] holds the message.  With an engine
    found, IMAGEIO_FFMPEG_EXE is set to the path that was found: the
    non-empty answer of [shutil.which] under "system-ffmpeg", or the existing
    bundled executable under "bundled-ffmpeg" when [which] found nothing.
    With [ENGINE] "disabled" the variable is not written: it keeps whatever
    value the process inherited. *)
Theorem loaded_globals_agree :
  forall h : Host,
    let g := module_load h in
    (ENGINE g = disabled <-> FFMPEG_ERROR g = Some no_ffmpeg_message)
    /\ (ENGINE g <> disabled <-> FFMPEG_ERROR g = None)
    /\ (ENGINE g = disabled -> IMAGEIO_FFMPEG_EXE g = inherited_exe h)
    /\ (ENGINE g <> disabled ->
        exists p,
          IMAGEIO_FFMPEG_EXE g = Some p
          /\ ((ENGINE g = system_ffmpeg /\ which h "ffmpeg" = Some p /\ truthy p = true)
              \/ (ENGINE g = bundled_ffmpeg /\ truthy_opt (which h "ffmpeg") = false
                  /\ get_ffmpeg_exe h = Ok p /\ path_exists h p = true))).
Proof.
  intros h. cbv zeta.
  unfold module_load, ensure_ffmpeg_available, bundled_probe, truthy_opt.
  destruct (which h "ffmpeg") as [q |] eqn:Hw;
    [destruct (truthy q) eqn:Ht |];
    try (destruct (get_ffmpeg_exe h) as [b | e] eqn:Hg;
         [destruct (path_exists h b) eqn:He |]);
    cbn;
    (repeat split; try discriminate; try congruence;
     try (intros H; now contradiction H);
     try (intros _; eexists; split; [reflexivity | tauto])).
Qed.

(* ------------------------------------------------------------------ *)
(** * More about the Interactive Shell *)

Section ShellInvariants.
Variable g : Globals.

(** ** Every request the window hands out is well formed *)

Abbreviation sliders_in_range := Window.sliders_in_range.

Lemma Forall_remove_nth {A} (P : A -> Prop) (k : nat) (l : list A) :
  Forall P l -> Forall P (Shell.remove_nth k l).
Proof.
  revert k. induction l as [| x l IH]; intros k H.
  - now destruct k.
  - inversion H as [| ? ? Hx Hl]; subst.
    destruct k as [| k]; cbn [Shell.remove_nth]; [exact Hl |].
    constructor; [exact Hx | now apply IH].
Qed.

Lemma merge_and_preview_requests (w : Shell.MainWindow) (answer : string) :
  sliders_in_range w -> Forall Request.well_formed (Shell.in_flight w) ->
  Forall Request.well_formed (Shell.in_flight (Shell.merge_and_preview g w answer)).
Proof.
  intros [Hm Ho] Hall. unfold Shell.merge_and_preview.
  destruct (Selection.video_path (Shell.state w)) as [video |]; [| exact Hall].
  destruct (Selection.audio_path (Shell.state w)) as [music |]; [| exact Hall].
  destruct (truthy video) eqn:Hv; [| exact Hall].
  destruct (truthy music) eqn:Ha; [| exact Hall].
  cbn [andb negb].
  destruct (engine_eqb (ENGINE g) disabled); [exact Hall |].
  destruct (negb (truthy answer)); [exact Hall |].
  cbn [Shell.in_flight Shell.set_in_flight Shell.set_progress Shell.set_merge_btn
         Shell.set_state Shell.music_slider Shell.original_slider].
  apply Forall_app. split; [exact Hall |].
  constructor; [| constructor].
  unfold Request.well_formed.
  cbn [video_path audio_path output_path music_level original_level].
  repeat split; try assumption.
  - apply with_mp4_extension_names_mp4.
  - now apply percent_in_unit_interval.
  - now apply percent_in_unit_interval.
  - now apply percent_in_unit_interval.
  - now apply percent_in_unit_interval.
Qed.

Lemma step_requests (w : Shell.MainWindow) (a : Shell.action) :
  sliders_in_range w /\ Forall Request.well_formed (Shell.in_flight w) ->
  sliders_in_range (Shell.step g w a)
  /\ Forall Request.well_formed (Shell.in_flight (Shell.step g w a)).
Proof.
  intros [Hs Hall].
  destruct a as [answer | answer | music original keep | answer | n | k | k err];
    cbn [Shell.step].
  - unfold Shell.pick_video. destruct (truthy answer); now split.
  - unfold Shell.pick_audio. destruct (truthy answer); now split.
  - split; [| exact Hall]. unfold Window.sliders_in_range, Shell.clamp. cbn. lia.
  - destruct (Shell.merge_btn w); [| now split]. split.
    + unfold Shell.merge_and_preview.
      destruct (Selection.video_path (Shell.state w));
        [destruct (Selection.audio_path (Shell.state w)) |]; try exact Hs.
      destruct (negb _); [exact Hs |].
      destruct (engine_eqb _ _); [exact Hs |].
      destruct (negb _); exact Hs.
    + now apply merge_and_preview_requests.
  - now split.
  - destruct (nth_error (Shell.in_flight w) k); [| now split].
    split; [exact Hs |]. cbn. now apply Forall_remove_nth.
  - destruct (nth_error (Shell.in_flight w) k); [| now split].
    split; [exact Hs |]. cbn. now apply Forall_remove_nth.
Qed.

Lemma session_requests (actions : list Shell.action) :
  forall w,
    sliders_in_range w /\ Forall Request.well_formed (Shell.in_flight w) ->
    Forall Request.well_formed (Shell.in_flight (Shell.session_from g w actions)).
Proof.
  induction actions as [| a rest IH]; intros w H.
  - exact (proj2 H).
  - cbn [Shell.session_from fold_left]. apply IH. now apply step_requests.
Qed.

(** X13.  Whatever the user does, every request the window hands to a worker
    names both input files, has an output path ending in ".mp4", and carries
    two levels between 0.0 and 1.0. *)
Theorem every_started_request_is_well_formed :
  forall (actions : list Shell.action) (worker : MergeWorker),
    In worker (Shell.in_flight (Shell.session g actions)) ->
    Request.well_formed worker.
Proof.
  intros actions worker Hin.
  assert (H : Forall Request.well_formed (Shell.in_flight (Shell.session g actions))).
  { apply session_requests. split.
    - unfold Window.sliders_in_range, Shell.init. destruct (ENGINE g); cbn; lia.
    - unfold Shell.init. destruct (ENGINE g); constructor. }
  rewrite Forall_forall in H. now apply H.
Qed.

(** ** The button after an outcome *)

Abbreviation armed := (Window.armed g).

Lemma step_armed_while_in_flight (w : Shell.MainWindow) (a : Shell.action) :
  (Shell.in_flight w <> [] -> armed w = true) ->
  Shell.in_flight (Shell.step g w a) <> [] -> armed (Shell.step g w a) = true.
Proof.
  intros Hw.
  destruct a as [answer | answer | music original keep | answer | n | k | k err];
    cbn [Shell.step].
  - unfold Shell.pick_video. destruct (truthy answer) eqn:Ht; [| exact Hw].
    cbn. intros H. specialize (Hw H). unfold Window.armed in *.
    apply andb_prop in Hw. destruct Hw as [Hw He].
    apply andb_prop in Hw. destruct Hw as [_ Ha].
    cbn. now rewrite Ht, Ha, He.
  - unfold Shell.pick_audio. destruct (truthy answer) eqn:Ht; [| exact Hw].
    cbn. intros H. specialize (Hw H). unfold Window.armed in *.
    apply andb_prop in Hw. destruct Hw as [Hw He].
    apply andb_prop in Hw. destruct Hw as [Hv _].
    cbn. now rewrite Ht, Hv, He.
  - exact Hw.
  - destruct (Shell.merge_btn w); [| exact Hw].
    unfold Shell.merge_and_preview.
    destruct (Selection.video_path (Shell.state w)) as [video |] eqn:Hv;
      [| exact Hw].
    destruct (Selection.audio_path (Shell.state w)) as [music |] eqn:Ha;
      [| exact Hw].
    destruct (truthy video) eqn:Htv; [| exact Hw].
    destruct (truthy music) eqn:Hta; [| exact Hw].
    cbn [andb negb].
    destruct (engine_eqb (ENGINE g) disabled) eqn:He; [exact Hw |].
    destruct (negb (truthy answer)); [exact Hw |].
    intros _. unfold Window.armed. cbn. now rewrite Htv, Hta, He.
  - exact Hw.
  - destruct (nth_error (Shell.in_flight w) k) eqn:Hk; [| exact Hw].
    intros _. cbn. apply Hw. intros Hnil. rewrite Hnil in Hk. now destruct k.
  - destruct (nth_error (Shell.in_flight w) k) eqn:Hk; [| exact Hw].
    intros _. cbn. apply Hw. intros Hnil. rewrite Hnil in Hk. now destruct k.
Qed.

Lemma session_armed_while_in_flight (actions : list Shell.action) :
  forall w,
    (Shell.in_flight w <> [] -> armed w = true) ->
    Shell.in_flight (Shell.session_from g w actions) <> [] ->
    armed (Shell.session_from g w actions) = true.
Proof.
  induction actions as [| a rest IH]; intros w Hw.
  - exact Hw.
  - cbn [Shell.session_from fold_left]. apply IH.
    now apply step_armed_while_in_flight.
Qed.

(** X14.  At any point of any session, delivering the outcome of a job in
    flight, success or failure, leaves the merge button enabled. *)
Theorem outcome_reenables_merge :
  forall (actions : list Shell.action) (k : nat) (worker : MergeWorker) (err : string),
    nth_error (Shell.in_flight (Shell.session g actions)) k = Some worker ->
    Shell.merge_btn (Shell.step g (Shell.session g actions) (Shell.deliver_finished k)) = true
    /\ Shell.merge_btn (Shell.step g (Shell.session g actions) (Shell.deliver_failed k err)) = true.
Proof.
  intros actions k worker err Hk. unfold Shell.session in *.
  assert (Harmed : armed (Shell.session_from g (Shell.init g) actions) = true).
  { apply session_armed_while_in_flight.
    - intros H. exfalso. apply H. unfold Shell.init. now destruct (ENGINE g).
    - intros Hnil. rewrite Hnil in Hk. now destruct k. }
  cbn [Shell.step]. rewrite Hk. split; exact Harmed.
Qed.

(** ** The selection *)

Lemma step_selection (w : Shell.MainWindow) (a : Shell.action) (rest : list Shell.action) :
  History.last_video (Selection.video_path (Shell.state (Shell.step g w a))) rest
  = History.last_video (Selection.video_path (Shell.state w)) (a :: rest)
  /\ History.last_audio (Selection.audio_path (Shell.state (Shell.step g w a))) rest
     = History.last_audio (Selection.audio_path (Shell.state w)) (a :: rest).
Proof.
  destruct a as [answer | answer | music original keep | answer | n | k | k err];
    cbn [Shell.step History.last_video History.last_audio].
  - unfold Shell.pick_video. destruct (truthy answer); now split.
  - unfold Shell.pick_audio. destruct (truthy answer); now split.
  - now split.
  - destruct (Shell.merge_btn w); [| now split].
    unfold Shell.merge_and_preview.
    destruct (Selection.video_path (Shell.state w)) as [video |] eqn:Hv;
      [destruct (Selection.audio_path (Shell.state w)) as [music |] eqn:Ha |];
      cbn; rewrite ?Hv, ?Ha; try (now split).
    destruct (negb _); cbn; rewrite ?Hv, ?Ha; [now split |].
    destruct (engine_eqb _ _); cbn; rewrite ?Hv, ?Ha; [now split |].
    destruct (negb _); cbn; rewrite ?Hv, ?Ha; now split.
  - now split.
  - destruct (nth_error (Shell.in_flight w) k); now split.
  - destruct (nth_error (Shell.in_flight w) k); now split.
Qed.

Lemma session_selection (actions : list Shell.action) :
  forall w,
    Selection.video_path (Shell.state (Shell.session_from g w actions))
    = History.last_video (Selection.video_path (Shell.state w)) actions
    /\ Selection.audio_path (Shell.state (Shell.session_from g w actions))
       = History.last_audio (Selection.audio_path (Shell.state w)) actions.
Proof.
  induction actions as [| a rest IH]; intros w.
  - now split.
  - cbn [Shell.session_from fold_left].
    destruct (IH (Shell.step g w a)) as [Hv Ha].
    destruct (step_selection w a rest) as [Hv' Ha'].
    unfold Shell.session_from in *. now rewrite Hv, Ha, Hv', Ha'.
Qed.

(** X15.  The selected video and music are always the last files the user
    chose in the two file dialogs: a cancelled dialog, a merge, a progress
    report or an outcome never changes them. *)
Theorem selection_is_the_last_choice :
  forall actions : list Shell.action,
    Selection.video_path (Shell.state (Shell.session g actions))
    = History.last_video None actions
    /\ Selection.audio_path (Shell.state (Shell.session g actions))
       = History.last_audio None actions.
Proof.
  intros actions. unfold Shell.session.
  destruct (session_selection actions (Shell.init g)) as [Hv Ha].
  rewrite Hv, Ha. unfold Shell.init. now destruct (ENGINE g).
Qed.

End ShellInvariants.

Lemma every_started_request_is_well_formed_witness :
  Request.well_formed History.second_request.
Proof.
  apply (@every_started_request_is_well_formed Builds.ready Builds.two_merges
           History.second_request).
  cbv. left. reflexivity.
Defined.

Lemma outcome_reenables_merge_witness :
  Shell.merge_btn
    (Shell.step Builds.ready (Shell.session Builds.ready History.one_merge)
       (Shell.deliver_finished 0)) = true
  /\ Shell.merge_btn
       (Shell.step Builds.ready (Shell.session Builds.ready History.one_merge)
          (Shell.deliver_failed 0 "disk full")) = true.
Proof.
  apply (@outcome_reenables_merge Builds.ready History.one_merge 0
           {| video_path := "clip.mp4"; audio_path := "song.mp3";
              output_path := "first.mp4";
              music_level := Shell.percent 100; original_level := Shell.percent 20;
              duck := true |} "disk full").
  vm_compute. reflexivity.
Defined.

(** ** The output name *)

(** [posix_splitext] on a plain name, a dot in a directory, a hidden file,
    several dots, a trailing dot and a name of dots only, as
    [os.path.splitext] answers on Linux. *)
Example posix_splitext_examples :
  Paths.posix_splitext "clip.mp4" = ("clip", ".mp4")
  /\ Paths.posix_splitext "/films/2024.05/clip" = ("/films/2024.05/clip", "")
  /\ Paths.posix_splitext "/home/me/.bashrc" = ("/home/me/.bashrc", "")
  /\ Paths.posix_splitext "a/.hidden.txt" = ("a/.hidden", ".txt")
  /\ Paths.posix_splitext "archive.tar.gz" = ("archive.tar", ".gz")
  /\ Paths.posix_splitext "clip." = ("clip", ".")
  /\ Paths.posix_splitext "..." = ("...", "").
Proof. repeat split. Qed.

Example suggestion_stays_in_the_directory :
  Paths.suggest_output_path Paths.posix_splitext "/films/2024.05/holiday.mov"
  = "/films/2024.05/holiday_with_music.mp4".
Proof. reflexivity. Qed.

Lemma truthy_app_r (s t : string) : truthy t = true -> truthy (s ++ t) = true.
Proof.
  destruct s; cbn [String.append]; [tauto | reflexivity].
Qed.

Lemma string_app_assoc (a b c : string) : ((a ++ b) ++ c = a ++ (b ++ c))%string.
Proof.
  induction a as [| x a IH]; cbn [String.append]; [reflexivity | now rewrite IH].
Qed.

Lemma suggestion_keeps_its_name (splitext : string -> string * string) (p : string) :
  truthy (Paths.suggest_output_path splitext p) = true
  /\ Shell.with_mp4_extension (Paths.suggest_output_path splitext p)
     = Paths.suggest_output_path splitext p.
Proof.
  unfold Paths.suggest_output_path. destruct (splitext p) as [base ext]. split.
  - now apply truthy_app_r.
  - unfold Shell.with_mp4_extension.
    change "_with_music.mp4" with ("_with_music" ++ ".mp4")%string.
    rewrite <- string_app_assoc, StringFacts.lower_endswith_mp4. reflexivity.
Qed.

(** X16.  The extension rule of [merge_and_preview] settles at once: its
    result always ends in ".mp4" (letter case aside), is never empty, and
    applying the rule to its own result changes nothing, so no name ever gets
    ".mp4" twice. *)
Theorem extension_rule_settles :
  forall answer : string,
    Shell.with_mp4_extension (Shell.with_mp4_extension answer)
    = Shell.with_mp4_extension answer
    /\ truthy (Shell.with_mp4_extension answer) = true
    /\ (Shell.with_mp4_extension answer = answer
        <-> endswith (lower answer) ".mp4" = true).
Proof.
  intros answer.
  pose proof (with_mp4_extension_names_mp4 answer) as Hmp4.
  split; [| split].
  - unfold Shell.with_mp4_extension at 1. now rewrite Hmp4.
  - unfold Shell.with_mp4_extension.
    destruct (endswith (lower answer) ".mp4") eqn:H; cbn [negb].
    + destruct answer; [discriminate H | reflexivity].
    + now apply truthy_app_r.
  - split; intros H.
    + now rewrite <- H.
    + unfold Shell.with_mp4_extension. now rewrite H.
Qed.

(** X17.  When both files are chosen and the engine is there, accepting the
    name that [suggest_output_path] proposes in the save dialog starts one
    job on the chosen files whose output path is that very name, disables the
    merge button and records the name as the selection's output path. *)
Theorem accepting_the_suggestion_starts_a_job_on_it :
  forall (splitext : string -> string * string) (g : Globals) (w : Shell.MainWindow)
         (video music : string),
    Selection.video_path (Shell.state w) = Some video ->
    Selection.audio_path (Shell.state w) = Some music ->
    truthy video = true -> truthy music = true ->
    ENGINE g <> disabled ->
    let suggested := Paths.suggest_output_path splitext video in
    let w' := Shell.merge_and_preview g w suggested in
    exists worker,
      Shell.in_flight w' = Shell.in_flight w ++ [worker]
      /\ video_path worker = video
      /\ audio_path worker = music
      /\ output_path worker = suggested
      /\ Shell.merge_btn w' = false
      /\ Selection.output_path (Shell.state w') = Some suggested.
Proof.
  intros splitext g w video music Hv Ha Htv Hta Hg. cbv zeta.
  destruct (suggestion_keeps_its_name splitext video) as [Ht Hsame].
  unfold Shell.merge_and_preview.
  rewrite Hv, Ha, Htv, Hta, Ht, Hsame. cbn [andb negb].
  destruct (engine_eqb (ENGINE g) disabled) eqn:He.
  { exfalso. apply Hg. now destruct (ENGINE g). }
  eexists. cbn. repeat split.
Qed.

Lemma accepting_the_suggestion_starts_a_job_on_it_witness :
  exists worker,
    Shell.in_flight (Shell.merge_and_preview Builds.ready Builds.chosen "clip_with_music.mp4")
    = Shell.in_flight Builds.chosen ++ [worker]
    /\ video_path worker = "clip.mp4"
    /\ audio_path worker = "song.mp3"
    /\ output_path worker = "clip_with_music.mp4"
    /\ Shell.merge_btn
         (Shell.merge_and_preview Builds.ready Builds.chosen "clip_with_music.mp4") = false
    /\ Selection.output_path
         (Shell.state
            (Shell.merge_and_preview Builds.ready Builds.chosen "clip_with_music.mp4"))
       = Some "clip_with_music.mp4".
Proof.
  apply (@accepting_the_suggestion_starts_a_job_on_it Paths.posix_splitext
           Builds.ready Builds.chosen "clip.mp4" "song.mp3");
    try reflexivity.
  discriminate.
Defined.

(* ------------------------------------------------------------------ *)
(** * A build without scaling mechanisms, end to end *)

Section BareJob.
Variables audio video : Type.
Variable L : MoviePy audio video.

Lemma safe_vol_without_mechanism_returns (clip out : audio) (n : Z) :
  Assumptions.no_mechanism L -> (0 <= n <= 100)%Z ->
  _safe_vol L clip (Shell.percent n) = Ok out -> n = 100%Z.
Proof.
  intros [Hnative [Heffect Hfl]] Hn.
  unfold _safe_vol, method1, method2, method3.
  rewrite Hnative, Heffect, Hfl. cbn [hasattr callable andb try_pass].
  rewrite (near_one_percent Hn).
  destruct (n =? 100)%Z eqn:E; [intros _; lia | discriminate].
Qed.

(** X18.  On a build without any scaling mechanism (and whose [__exit__]
    methods swallow nothing) a job whose levels come from the sliders can end
    in [finished] only if the music slider stands at 100 and, when ducking is
    on and the video has an audio track, the original slider stands at 100
    too. *)
Theorem without_mechanisms_a_merge_needs_full_levels :
  Assumptions.no_mechanism L ->
  Assumptions.exits_do_not_swallow L ->
  forall (g : Globals) (w : MergeWorker) (m o : Z),
    (0 <= m <= 100)%Z -> (0 <= o <= 100)%Z ->
    music_level w = Shell.percent m ->
    original_level w = Shell.percent o ->
    In (Job.finished_emit (output_path w)) (Job.run L g w) ->
    m = 100%Z
    /\ (duck w = false
        \/ o = 100%Z
        \/ exists v, VideoFileClip L (video_path w) = Ok v /\ audio_of L v = None).
Proof.
  intros Hbare [Haudio Hvideo] g w m o Hm Ho Hml Hol.
  run_cases; cbn [In fst app]; intros H;
    repeat (destruct H as [H | H]; try discriminate H);
    try contradiction;
    try (exfalso;
         match goal with
         | E : audio_exit L _ _ = Ok true |- _ => apply Haudio in E; discriminate E
         | E : video_exit L _ _ = Ok true |- _ => apply Hvideo in E; discriminate E
         end);
    (split;
     [ match goal with
       | E : _safe_vol L _ (music_level w) = Ok _ |- _ =>
           rewrite Hml in E;
           eapply safe_vol_without_mechanism_returns; [exact Hbare | exact Hm | exact E]
       end
     | first
         [ left; reflexivity
         | right; left;
           match goal with
           | E : _safe_vol L _ (original_level w) = Ok _ |- _ =>
               rewrite Hol in E;
               eapply safe_vol_without_mechanism_returns; [exact Hbare | exact Ho | exact E]
           end
         | right; right; eexists; split; [reflexivity | eassumption] ] ]).
Qed.

End BareJob.

Lemma bare_exits_do_not_swallow : Assumptions.exits_do_not_swallow Builds.bare.
Proof.
  split; intros x exc b H; cbn in H; now injection H as <-.
Qed.

Lemma without_mechanisms_a_merge_needs_full_levels_witness :
  100%Z = 100%Z
  /\ (duck History.full_level_request = false
      \/ 100%Z = 100%Z
      \/ exists v, VideoFileClip Builds.bare (video_path History.full_level_request) = Ok v
                   /\ audio_of Builds.bare v = None).
Proof.
  apply (@without_mechanisms_a_merge_needs_full_levels _ _ Builds.bare
           bare_has_no_mechanism bare_exits_do_not_swallow
           Builds.ready History.full_level_request 100%Z 100%Z);
    try lia; try reflexivity.
  cbv. do 10 right. left. reflexivity.
Defined.

(* ------------------------------------------------------------------ *)
(** * The message boxes of a session *)

Section Dialogs.
Variable g : Globals.

Abbreviation armed := (Window.armed g).

Abbreviation quiet_guards := (Window.quiet_guards g).

Lemma enable_quiet_guards (w : Shell.MainWindow) :
  (forall title text, In (Shell.warning title text) (Shell.shown w) ->
     ENGINE g = disabled
     /\ title = "FFmpeg missing" /\ text = "Install FFmpeg to enable merging.") ->
  quiet_guards (Shell.enable_merge_if_ready g w).
Proof.
  intros H. split; [| exact H]. cbn. tauto.
Qed.

Lemma step_quiet_guards (w : Shell.MainWindow) (a : Shell.action) :
  quiet_guards w -> quiet_guards (Shell.step g w a).
Proof.
  intros [Hbtn Hwarn].
  destruct a as [answer | answer | music original keep | answer | n | k | k err];
    cbn [Shell.step].
  - unfold Shell.pick_video. destruct (truthy answer); [| now split].
    now apply enable_quiet_guards.
  - unfold Shell.pick_audio. destruct (truthy answer); [| now split].
    now apply enable_quiet_guards.
  - now split.
  - destruct (Shell.merge_btn w) eqn:Hb; [| split; [now rewrite Hb | exact Hwarn]].
    assert (Hinv : quiet_guards w) by (split; [intros _; now apply Hbtn | exact Hwarn]).
    specialize (Hbtn eq_refl). unfold Window.armed in Hbtn.
    apply andb_prop in Hbtn. destruct Hbtn as [Hbtn He].
    apply andb_prop in Hbtn. destruct Hbtn as [Hv Ha].
    unfold Shell.merge_and_preview.
    destruct (Selection.video_path (Shell.state w)) as [video |]; [| discriminate Hv].
    destruct (Selection.audio_path (Shell.state w)) as [music |]; [| discriminate Ha].
    cbn [truthy_opt] in Hv, Ha. rewrite Hv, Ha. cbn [andb negb].
    apply negb_true_iff in He. rewrite He.
    destruct (negb (truthy answer)); [exact Hinv |].
    split; [discriminate | exact Hwarn].
  - now split.
  - destruct (nth_error (Shell.in_flight w) k); [| now split].
    apply enable_quiet_guards. cbn. intros title text H.
    apply in_app_or in H. destruct H as [H | [H | []]]; [now apply Hwarn | discriminate H].
  - destruct (nth_error (Shell.in_flight w) k); [| now split].
    apply enable_quiet_guards. cbn. intros title text H.
    apply in_app_or in H. destruct H as [H | [H | []]]; [now apply Hwarn | discriminate H].
Qed.

Lemma session_quiet_guards (actions : list Shell.action) :
  forall w, quiet_guards w -> quiet_guards (Shell.session_from g w actions).
Proof.
  induction actions as [| a rest IH]; intros w Hw.
  - exact Hw.
  - cbn [Shell.session_from fold_left]. apply IH. now apply step_quiet_guards.
Qed.

(** X19.  The two guards at the head of [merge_and_preview] never fire from
    the button: in every session the only warning box ever shown is the
    "FFmpeg missing" advisory of a start without engine. *)
Theorem no_warning_but_the_startup_advisory :
  forall (actions : list Shell.action) (title text : string),
    In (Shell.warning title text) (Shell.shown (Shell.session g actions)) ->
    ENGINE g = disabled
    /\ title = "FFmpeg missing" /\ text = "Install FFmpeg to enable merging.".
Proof.
  intros actions title text H.
  assert (Hq : quiet_guards (Shell.session g actions)).
  { apply session_quiet_guards. unfold Shell.init. split.
    - destruct (ENGINE g); discriminate.
    - intros t x Hin.
      destruct (ENGINE g); cbn in Hin; try contradiction;
        destruct Hin as [Hin | []]; try discriminate Hin.
      injection Hin as <- <-. repeat split. }
  exact (proj2 Hq title text H).
Qed.

End Dialogs.

Lemma no_warning_but_the_startup_advisory_witness :
  ENGINE (module_load Builds.empty_host) = disabled
  /\ "FFmpeg missing" = "FFmpeg missing"
  /\ "Install FFmpeg to enable merging." = "Install FFmpeg to enable merging.".
Proof.
  apply (@no_warning_but_the_startup_advisory (module_load Builds.empty_host)
           Builds.two_merges "FFmpeg missing" "Install FFmpeg to enable merging.").
  cbv. left. reflexivity.
Defined.

(* ------------------------------------------------------------------ *)
(** * From the window to the worker *)

Section StartedJobs.
Variables audio video : Type.
Variable L : MoviePy audio video.

Lemma run_with_engine_reports_first (g : Globals) (w : MergeWorker) :
  ENGINE g <> disabled ->
  exists rest,
    Job.run L g w
    = Job.progress_emit 5 :: Job.VideoFileClip_call (video_path w) :: rest.
Proof.
  intros Hg.
  assert (He : engine_eqb (ENGINE g) disabled = false)
    by (destruct (ENGINE g); [reflexivity | reflexivity | now contradiction Hg]).
  open_run. rewrite He. split_outcomes; cbn [fst app]; eexists; reflexivity.
Qed.

(** X20.  The engine check of [run] never fires for a job the window
    started: every worker in flight, when run, first reports 5 percent and
    then opens the video it was given. *)
Theorem started_jobs_pass_the_engine_check :
  forall (g : Globals) (actions : list Shell.action) (worker : MergeWorker),
    In worker (Shell.in_flight (Shell.session g actions)) ->
    exists rest,
      Job.run L g worker
      = Job.progress_emit 5 :: Job.VideoFileClip_call (video_path worker) :: rest.
Proof.
  intros g actions worker Hin.
  apply run_with_engine_reports_first.
  assert (Harmed : Window.armed g (Shell.session g actions) = true).
  { unfold Shell.session in *. apply session_armed_while_in_flight.
    - intros H. exfalso. apply H. unfold Shell.init. now destruct (ENGINE g).
    - intros Hnil. rewrite Hnil in Hin. destruct Hin. }
  unfold Window.armed in Harmed. apply andb_prop in Harmed.
  destruct Harmed as [_ He]. intros Hg. rewrite Hg in He. discriminate He.
Qed.

End StartedJobs.

Lemma started_jobs_pass_the_engine_check_witness :
  exists rest,
    Job.run Builds.classic Builds.ready History.second_request
    = Job.progress_emit 5 :: Job.VideoFileClip_call "other.mp4" :: rest.
Proof.
  apply (@started_jobs_pass_the_engine_check _ _ Builds.classic Builds.ready
           Builds.two_merges History.second_request).
  cbv. left. reflexivity.
Defined.
